(** * FinalSimpleKnockout: the selectable observable array and the list demo

    A shallow embedding of [Scripts/myscripts.js]:

    - [BetterListModel], the demo view-model (lines 22-41);
    - [ko.observableArray.fn.selectable], the selection extension
      (lines 74-246), with its computed attributes and its binding tools
      [new], [clone] and [delete].

    The script runs on Knockout.  The parts of Knockout the script calls are
    modelled in [Module Ko] from Knockout's documented behaviour: an
    observable array wraps a JavaScript array, [indexOf] searches it with
    [===], [push] appends, [remove] deletes every element [===] to its
    argument and [removeAll] every element found in the array it is given.
    A [ko.computed] is called without argument to read and with one argument
    to write; it evaluates again when an observable it has read changes, so
    that a read gives what its [read] function gives on the current state;
    it has none of the methods of an observable array. *)

From Stdlib Require Import ZArith Lia.
From stdpp Require Import base decidable option list strings gmap pretty sorting.

Local Open Scope Z_scope.

(** ** JavaScript values *)

(** The values the arrays hold.  Numbers are the integers (the model has no
    fractional numbers and no NaN), objects are references into a heap, so
    that [===] is equality of values. *)
Inductive value : Type :=
| VUndefined
| VNull
| VBool (b : bool)
| VNum (n : Z)
| VStr (s : string)
| VObj (r : nat).

Global Instance value_eq_dec : EqDecision value.
Proof. solve_decision. Defined.

(** [===] *)
Definition strict_eq (v w : value) : bool := bool_decide (v = w).

(** ToBoolean: what [if (v)] and [v || w] test. *)
Definition truthy (v : value) : bool :=
  match v with
  | VUndefined | VNull => false
  | VBool b => b
  | VNum n => negb (n =? 0)
  | VStr s => negb (bool_decide (s = ""%string))
  | VObj _ => true
  end.

(** [v || w] *)
Definition js_or (v w : value) : value := if truthy v then v else w.

(** [v == ""]: the string [""] converts to the number 0, a boolean to 0 or
    1, a plain object to the string ["[object Object]"]. *)
Definition loose_eq_empty (v : value) : bool :=
  match v with
  | VStr s => bool_decide (s = ""%string)
  | VNum n => n =? 0
  | VBool b => negb b
  | VUndefined | VNull | VObj _ => false
  end.

(** The integers that JavaScript prints in decimal notation, digit by
    digit: those of at most 2^53 in absolute value. *)
Definition safe_integer (n : Z) : bool := Z.abs n <=? 2 ^ 53.

(** ToString, as the operator [+] applies it to its left operand when the
    right one is a string, and as [sort] applies it.  A number beyond 2^53
    is printed by the engine with the fewest digits that tell it from the
    other numbers, and with an exponent from 10^21: what the engine prints
    there is the parameter [number_to_string]. *)
Definition to_string (number_to_string : Z -> string) (v : value) : string :=
  match v with
  | VUndefined => "undefined"
  | VNull => "null"
  | VBool true => "true"
  | VBool false => "false"
  | VNum n => if safe_integer n then pretty n else number_to_string n
  | VStr s => s
  | VObj _ => "[object Object]"
  end.

(** ** The order of strings *)

(** A string of the model holds a JavaScript string in UTF-8.  JavaScript
    compares strings by their UTF-16 code units. *)

(** The code points of a string: [need] bytes are still to come for the
    code point whose leading bits are [acc]. *)
Fixpoint code_points (need : nat) (acc : N) (s : string) : list N :=
  match s with
  | EmptyString => []
  | String c rest =>
      let b := Ascii.N_of_ascii c in
      match need with
      | O =>
          if (b <? 128)%N then b :: code_points 0 0 rest
          else if (b <? 224)%N then code_points 1 (N.land b 31) rest
          else if (b <? 240)%N then code_points 2 (N.land b 15) rest
          else code_points 3 (N.land b 7) rest
      | S need' =>
          let acc' := (acc * 64 + N.land b 63)%N in
          match need' with
          | O => acc' :: code_points 0 0 rest
          | S _ => code_points need' acc' rest
          end
      end
  end.

(** The UTF-16 code units of a code point: itself, or two surrogates. *)
Definition code_units_of (c : N) : list N :=
  if (c <? 65536)%N then [c]
  else [(55296 + (c - 65536) / 1024)%N; (56320 + (c - 65536) mod 1024)%N].

Definition code_units (s : string) : list N :=
  flat_map code_units_of (code_points 0 0 s).

(** The lexicographic order of the code units. *)
Fixpoint units_leb (u v : list N) : bool :=
  match u, v with
  | [], _ => true
  | _ :: _, [] => false
  | a :: u', b :: v' =>
      if (a <? b)%N then true
      else if (b <? a)%N then false
      else units_leb u' v'
  end.

(** [s <= t] on strings *)
Definition string_leb (s t : string) : bool :=
  units_leb (code_units s) (code_units t).

(** A plain object: its properties. *)
Definition obj : Type := gmap string value.

(** ** Knockout's array functions *)

Module Ko.

(** [ko.utils.arrayIndexOf]: the first position whose element is [===] to
    [item], or -1. *)
Fixpoint arrayIndexOf (array : list value) (item : value) : Z :=
  match array with
  | [] => -1
  | x :: rest =>
      if strict_eq x item then 0
      else let i := arrayIndexOf rest item in
           if i <? 0 then -1 else i + 1
  end.

(** [array[i]]: [undefined] out of range. *)
Definition index (array : list value) (i : Z) : value :=
  if i <? 0 then VUndefined else default VUndefined (array !! Z.to_nat i).

(** [observableArray.push] on the underlying array. *)
Definition push (array : list value) (item : value) : list value :=
  array ++ [item].

(** [observableArray.remove(value)]: every element [===] to the value is
    spliced out.  (A function argument would be taken as a predicate; the
    model has no function values.) *)
Definition remove (array : list value) (v : value) : list value :=
  List.filter (fun x => negb (strict_eq x v)) array.

(** [observableArray.removeAll(arrayOfValues)] with an array argument:
    every element found in [arrayOfValues] is spliced out. *)
Definition removeAll (array arrayOfValues : list value) : list value :=
  List.filter (fun x => negb (0 <=? arrayIndexOf arrayOfValues x)) array.

Section Sort.

Variable number_to_string : Z -> string.

(** The order of [Array.prototype.sort] without a comparison function:
    [undefined] comes last, the other values are compared as strings. *)
Definition sort_le (x y : value) : bool :=
  match x, y with
  | _, VUndefined => true
  | VUndefined, _ => false
  | _, _ => string_leb (to_string number_to_string x) (to_string number_to_string y)
  end.

Fixpoint sort_insert (x : value) (sorted : list value) : list value :=
  match sorted with
  | [] => [x]
  | y :: rest => if sort_le x y then x :: y :: rest else y :: sort_insert x rest
  end.

(** [observableArray.sort()]: the underlying array sorted in that order,
    values that compare equal keeping their order. *)
Definition sort (array : list value) : list value :=
  foldr sort_insert [] array.

End Sort.

End Ko.

(** ** The first view-model (lines 2-9) *)

Module FirstName.

Record model : Type := Model {
  fName : value;
  array : list value
}.

(** The object of lines 2-8 after line 9 has written [" "] to [fName]. *)
Definition init : model := {| fName := VStr " "; array := [] |}.

(** [addName] (lines 5-7) *)
Definition addName (m : model) : model :=
  {| fName := fName m; array := Ko.push (array m) (fName m) |}.

End FirstName.

(** ** The demo view-model (lines 22-41) *)

Module BetterListModel.

Record model : Type := Model {
  itemToAdd : value;
  allItems : list value;
  selectedItems : list value
}.

(** [new BetterListModel()] *)
Definition init : model :=
  {| itemToAdd := VStr "";
     allItems := [VStr "Fries"; VStr "Eggs Benedict"; VStr "Ham"; VStr "Cheese"];
     selectedItems := [VStr "Ham"] |}.

(** [addItem] (lines 27-31) *)
Definition addItem (m : model) : model :=
  let m1 :=
    if negb (loose_eq_empty (itemToAdd m))
       && (Ko.arrayIndexOf (allItems m) (itemToAdd m) <? 0)
    then {| itemToAdd := itemToAdd m;
            allItems := Ko.push (allItems m) (itemToAdd m);
            selectedItems := selectedItems m |}
    else m in
  {| itemToAdd := VStr "";
     allItems := allItems m1;
     selectedItems := selectedItems m1 |}.

(** [removeSelected] (lines 33-36) *)
Definition removeSelected (m : model) : model :=
  let m1 := {| itemToAdd := itemToAdd m;
               allItems := Ko.removeAll (allItems m) (selectedItems m);
               selectedItems := selectedItems m |} in
  {| itemToAdd := itemToAdd m1;
     allItems := allItems m1;
     selectedItems := [] |}.

(** [sortItems] (lines 38-40); [number_to_string] is the parameter of
    [to_string]. *)
Definition sortItems (number_to_string : Z -> string) (m : model) : model :=
  {| itemToAdd := itemToAdd m;
     allItems := Ko.sort number_to_string (allItems m);
     selectedItems := selectedItems m |}.

(** What happens to the view-model: a value is written to [itemToAdd] (by
    the text box), or one of the three methods is called. *)
Inductive action : Type :=
| WriteItemToAdd (v : value)
| AddItem
| RemoveSelected
| SortItems.

Definition step (number_to_string : Z -> string) (m : model) (a : action) : model :=
  match a with
  | WriteItemToAdd v =>
      {| itemToAdd := v; allItems := allItems m; selectedItems := selectedItems m |}
  | AddItem => addItem m
  | RemoveSelected => removeSelected m
  | SortItems => sortItems number_to_string m
  end.

Definition run (number_to_string : Z -> string) (actions : list action)
    (m : model) : model :=
  foldl (step number_to_string) m actions.

End BetterListModel.

(** ** The selectable extension (lines 74-246) *)

Module Selectable.

(** What [selectable] stores in a property of the array: one of its four
    computed attributes or one of its three binding tools.  [member_call]
    below gives the function that each of them is. *)
Inductive member : Type :=
| SelectedItems
| SelectedIndexes
| SelectedItem
| SelectedIndex
| New
| Clone
| Delete.

Global Instance member_eq_dec : EqDecision member.
Proof. solve_decision. Defined.

(** The observable array [this] and what the extension keeps with it:
    - [self], the identity of the array object;
    - [heap], the plain objects allocated so far, [VObj r] being the object
      at position [r];
    - [underlyingArray], the JavaScript array [this()];
    - [members], the properties [selectable] has defined on [this];
    - [selected] and [selectedItems], the observables of the closures of
      lines 121 and 86 (for the latter, the array it holds). *)
Record oarray : Type := OArray {
  self : nat;
  heap : list obj;
  underlyingArray : list value;
  members : gmap string member;
  selected : value;
  selectedItems : list value
}.

Inductive error : Type :=
| TypeError (msg : string).

Inductive outcome (A : Type) : Type :=
| Ok (a : A)
| Throw (e : error).
Arguments Ok {A} a.
Arguments Throw {A} e.

(** A piece of script: it runs on the array, changes it in place, and
    either returns or throws.  What it did before a throw stays done. *)
Definition M (A : Type) : Type := oarray -> outcome A * oarray.

Definition ret {A} (a : A) : M A := fun st => (Ok a, st).

Definition bind {A B} (c : M A) (k : A -> M B) : M B :=
  fun st =>
    match c st with
    | (Ok a, st') => k a st'
    | (Throw e, st') => (Throw e, st')
    end.

Definition throw {A} (e : error) : M A := fun st => (Throw e, st).

Definition gets {A} (f : oarray -> A) : M A := fun st => (Ok (f st), st).

Definition modify (f : oarray -> oarray) : M unit := fun st => (Ok tt, f st).

Notation "'do' x <- c ; k" := (bind c (fun x => k))
  (at level 10, x name, c at level 100, k at level 200).
Notation "c ;; k" := (bind c (fun _ => k))
  (at level 100, k at level 200, right associativity).

Definition set_heap (h : list obj) : M unit :=
  modify (fun st => OArray (self st) h (underlyingArray st) (members st)
                           (selected st) (selectedItems st)).

Definition set_underlyingArray (a : list value) : M unit :=
  modify (fun st => OArray (self st) (heap st) a (members st)
                           (selected st) (selectedItems st)).

Definition set_member (name : string) (m : member) : M unit :=
  modify (fun st => OArray (self st) (heap st) (underlyingArray st)
                           (<[name := m]> (members st))
                           (selected st) (selectedItems st)).

Definition set_selected (v : value) : M unit :=
  modify (fun st => OArray (self st) (heap st) (underlyingArray st) (members st)
                           v (selectedItems st)).

Definition set_selectedItems (l : list value) : M unit :=
  modify (fun st => OArray (self st) (heap st) (underlyingArray st) (members st)
                           (selected st) l).

(** [ko.utils.arrayForEach] and [ko.utils.arrayMap], with a callback that
    runs on the array. *)
Fixpoint arrayForEach {A} (array : list A) (action : A -> M unit) : M unit :=
  match array with
  | [] => ret tt
  | x :: rest => action x ;; arrayForEach rest action
  end.

Fixpoint arrayMap {A B} (array : list A) (mapping : A -> M B) : M (list B) :=
  match array with
  | [] => ret []
  | x :: rest =>
      do y <- mapping x;
      do ys <- arrayMap rest mapping;
      ret (y :: ys)
  end.

(** [this.name(...)]: the call of a property of [this].  The properties the
    script calls are written by [selectable] only, each name always with the
    same function, so a property that is present runs the body given here;
    one that is absent is [undefined], and calling it throws. *)
Definition this_call {A} (name : string) (body : M A) : M A :=
  do ms <- gets members;
  match ms !! name with
  | Some _ => body
  | None => throw (TypeError (String.append name " is not a function"))
  end.

(** [if (this.name)] *)
Definition this_has (name : string) : M bool :=
  do ms <- gets members;
  ret (bool_decide (is_Some (ms !! name))).

(** [this.push], [this.remove], [this.removeAll], [this.indexOf], [this()[i]] *)
Definition this_push (item : value) : M unit :=
  do a <- gets underlyingArray; set_underlyingArray (Ko.push a item).

Definition this_remove (v : value) : M unit :=
  do a <- gets underlyingArray; set_underlyingArray (Ko.remove a v).

Definition this_removeAll (vs : list value) : M unit :=
  do a <- gets underlyingArray; set_underlyingArray (Ko.removeAll a vs).

Definition this_indexOf (item : value) : M Z :=
  do a <- gets underlyingArray; ret (Ko.arrayIndexOf a item).

Definition this_at (i : Z) : M value :=
  do a <- gets underlyingArray; ret (Ko.index a i).

(** [v.k], for the two properties the script reads ([__ko_mapping__] and
    [name], which no primitive value has): a TypeError on [null] and
    [undefined]. *)
Definition get_prop (v : value) (k : string) : M value :=
  match v with
  | VUndefined | VNull =>
      throw (TypeError (String.append "Cannot read property " k))
  | VObj r =>
      do h <- gets heap;
      ret (default VUndefined (o ← h !! r; o !! k))
  | VBool _ | VNum _ | VStr _ => ret VUndefined
  end.

(** [v.k = w]: without effect on a primitive value. *)
Definition set_prop (v : value) (k : string) (w : value) : M unit :=
  match v with
  | VObj r =>
      do h <- gets heap;
      match h !! r with
      | Some o => set_heap (<[r := <[k := w]> o]> h)
      | None => ret tt
      end
  | _ => ret tt
  end.

(** [{}]: a new object without properties. *)
Definition new_object : M value :=
  do h <- gets heap;
  set_heap (h ++ [∅]) ;;
  ret (VObj (length h)).

(** *** The multiple selection attributes (lines 86-116) *)

(** [selectedItems], read: the array of the closure's observable. *)
Definition read_selectedItems : M (list value) := gets selectedItems.

(** [selectedItems], write (lines 90-100) *)
Definition write_selectedItems (items : list value) : M unit :=
  set_selectedItems [] ;;
  arrayForEach items (fun obj =>
    do s <- gets selectedItems;
    do i <- this_indexOf obj;
    if (Ko.arrayIndexOf s obj =? -1) && (0 <=? i)
    then set_selectedItems (s ++ [obj])
    else ret tt).

(** [selectedIndexes], read (lines 104-108) *)
Definition read_selectedIndexes : M (list Z) :=
  do s <- this_call "selectedItems" read_selectedItems;
  arrayMap s this_indexOf.

(** [selectedIndexes], write (lines 109-113) *)
Definition write_selectedIndexes (indexes : list Z) : M unit :=
  do items <- arrayMap indexes this_at;
  this_call "selectedItems" (write_selectedItems items).

(** *** The single selection attributes (lines 121-143) *)

Definition read_selectedItem : M value := gets selected.

(** [selectedItem], write (lines 125-131) *)
Definition write_selectedItem (object : value) : M unit :=
  do i <- this_indexOf object;
  if i <? 0 then set_selected VNull else set_selected object.

(** [selectedIndex], read (lines 135-137) *)
Definition read_selectedIndex : M Z :=
  do s <- gets selected; this_indexOf s.

(** [selectedIndex], write (lines 138-140) *)
Definition write_selectedIndex (i : Z) : M unit :=
  do v <- this_at i;
  this_call "selectedItem" (write_selectedItem v).

(** *** The binding tools (lines 153-243) *)

Section BindingTools.

(** What the tools call and the script does not define:
    - [number_to_string], the parameter of [to_string];
    - [ko.toJS], which copies an object graph into new plain objects: it
      works on the heap and returns the copy;
    - [ko.mapping.toJS] and [ko.mapping.fromJS] of the mapping plugin, used
      for the objects that carry [__ko_mapping__];
    - [this.create], the method a user of the array may have supplied. *)
Variable number_to_string : Z -> string.
Variable ko_toJS : list obj -> value -> list obj * value.
Variable ko_mapping_toJS : value -> M value.
Variable ko_mapping_fromJS : value -> value -> M value.
Variable create : option (value -> M value).

(** The inner [clone] (lines 155-178) *)
Definition clone_helper (object : value) : M value :=
  do mapping <- get_prop object "__ko_mapping__";
  do data <-
    (if truthy mapping then ko_mapping_toJS object
     else do h <- gets heap;
          let (h', d) := ko_toJS h object in
          set_heap h' ;; ret d);
  do name <- get_prop data "name";
  (if truthy name
   then set_prop data "name" (VStr (String.append (to_string number_to_string name) " copy"))
   else ret tt) ;;
  match create with
  | Some this_create => this_create data
  | None =>
      do mapping' <- get_prop object "__ko_mapping__";
      do created <-
        (if truthy mapping' then ko_mapping_fromJS data mapping'
         else ret data);
      this_push created ;;
      ret created
  end.

(** [clone] (lines 182-195) *)
Definition clone (object : value) : M nat :=
  do single <- this_has "selectedItem";
  (if single then
     do source <-
       (if truthy object then ret object
        else this_call "selectedItem" read_selectedItem);
     do created <- clone_helper source;
     this_call "selectedItem" (write_selectedItem created)
   else
     if truthy object then
       do created <- clone_helper object;
       this_call "selectedItems" (write_selectedItems [created])
     else
       do s <- this_call "selectedItems" read_selectedItems;
       do created <- arrayMap s clone_helper;
       this_call "selectedItems" (write_selectedItems created)) ;;
  gets self.

(** [delete] (lines 199-217).  In the branch of line 209,
    [this.selectedItems] is the [ko.computed] of line 88, not the observable
    array of line 86: it has no [remove], and the call throws. *)
Definition delete (object : value) : M nat :=
  do single <- this_has "selectedItem";
  (if single then
     do target <-
       (if truthy object then ret object
        else this_call "selectedItem" read_selectedItem);
     this_remove target ;;
     do current <- this_call "selectedItem" read_selectedItem;
     if strict_eq current object
     then this_call "selectedItem" (write_selectedItem VNull)
     else ret tt
   else
     if truthy object then
       this_remove object ;;
       throw (TypeError "this.selectedItems.remove is not a function")
     else
       do s <- this_call "selectedItems" read_selectedItems;
       this_removeAll s ;;
       this_call "selectedItems" (write_selectedItems [])) ;;
  gets self.

(** [new] (lines 223-241); its arguments are not read. *)
Definition new (arguments : list value) : M nat :=
  do created <-
    match create with
    | Some this_create => do o <- new_object; this_create o
    | None => do o <- new_object; this_push o ;; ret o
    end;
  do single <- this_has "selectedItem";
  (if single
   then this_call "selectedItem" (write_selectedItem created)
   else this_call "selectedItems" (write_selectedItems [created])) ;;
  gets self.

End BindingTools.

(** *** [selectable] itself (lines 74-153 and 245) *)

(** The options object of lines 77-80. *)
Definition make_options (arguments : list string) : gmap string bool :=
  foldl (fun options opt => <[opt := true]> options) ∅ arguments.

Definition option_set (options : gmap string bool) (name : string) : bool :=
  default false (options !! name).

(** [this.selected = this.name] *)
Definition alias_selected (name : string) : M unit :=
  do ms <- gets members;
  match ms !! name with
  | Some m => set_member "selected" m
  | None => ret tt
  end.

Definition selectable (arguments : list string) : M nat :=
  let options := make_options arguments in
  (if option_set options "multiple" then
     set_selectedItems [] ;;
     set_member "selectedItems" SelectedItems ;;
     set_member "selectedIndexes" SelectedIndexes ;;
     alias_selected "selectedItems"
   else
     set_selected VNull ;;
     set_member "selectedItem" SelectedItem ;;
     set_member "selectedIndex" SelectedIndex ;;
     alias_selected "selectedItem") ;;
  (if option_set options "bindingTools" then
     set_member "clone" Clone ;;
     set_member "delete" Delete ;;
     set_member "new" New
   else ret tt) ;;
  gets self.

(** *** Calls from outside *)

(** The argument of a call of a member, and what the call returns. *)
Inductive argument : Type :=
| NoArgument
| Item (v : value)
| Items (l : list value)
| Index (i : Z)
| Indexes (l : list Z).

Inductive returned : Type :=
| This (id : nat)
| AnItem (v : value)
| TheItems (l : list value)
| AnIndex (i : Z)
| TheIndexes (l : list Z).

(** A method that ends with [return this]. *)
Definition returning_this (c : M nat) : M returned :=
  do id <- c; ret (This id).

(** A [ko.computed] called with an argument runs its [write] and returns
    the object it was called on. *)
Definition writing (c : M unit) : M returned :=
  c ;; do id <- gets self; ret (This id).

Section Calls.

Variable number_to_string : Z -> string.
Variable ko_toJS : list obj -> value -> list obj * value.
Variable ko_mapping_toJS : value -> M value.
Variable ko_mapping_fromJS : value -> value -> M value.
Variable create : option (value -> M value).

(** The function that a member is, applied to an argument: for a computed
    attribute the [read] of lines 89, 104, 124 and 135 when there is no
    argument and the [write] of lines 90, 109, 125 and 138 when there is
    one; for a tool the function of lines 223, 182 and 199.  [None] stands
    for an argument of another kind than the function takes, a call the
    model does not cover. *)
Definition member_call (m : member) (a : argument) : option (M returned) :=
  match m, a with
  | SelectedItems, NoArgument =>
      Some (do l <- read_selectedItems; ret (TheItems l))
  | SelectedItems, Items l => Some (writing (write_selectedItems l))
  | SelectedIndexes, NoArgument =>
      Some (do l <- read_selectedIndexes; ret (TheIndexes l))
  | SelectedIndexes, Indexes l => Some (writing (write_selectedIndexes l))
  | SelectedItem, NoArgument =>
      Some (do v <- read_selectedItem; ret (AnItem v))
  | SelectedItem, Item v => Some (writing (write_selectedItem v))
  | SelectedIndex, NoArgument =>
      Some (do i <- read_selectedIndex; ret (AnIndex i))
  | SelectedIndex, Index i => Some (writing (write_selectedIndex i))
  | New, NoArgument => Some (returning_this (new create []))
  | New, Item v => Some (returning_this (new create [v]))
  | Clone, NoArgument =>
      Some (returning_this
              (clone number_to_string ko_toJS ko_mapping_toJS ko_mapping_fromJS
                 create VUndefined))
  | Clone, Item v =>
      Some (returning_this
              (clone number_to_string ko_toJS ko_mapping_toJS ko_mapping_fromJS
                 create v))
  | Delete, NoArgument => Some (returning_this (delete VUndefined))
  | Delete, Item v => Some (returning_this (delete v))
  | _, _ => None
  end.

(** [array.name(a)]: the property is looked up on the array and the
    function found there is called; a name that is not defined is
    [undefined], and calling it throws. *)
Definition invoke (name : string) (a : argument) (st : oarray)
    : option (outcome returned * oarray) :=
  match members st !! name with
  | Some m =>
      match member_call m a with
      | Some c => Some (c st)
      | None => None
      end
  | None =>
      Some (Throw (TypeError (String.append name " is not a function")), st)
  end.

End Calls.

(** [ko.observableArray(initial)] before any call of [selectable]. *)
Definition observableArray (id : nat) (h : list obj) (initial : list value) : oarray :=
  OArray id h initial ∅ VNull [].

(** The state a piece of script leaves, and what it returned. *)
Definition exec {A} (c : M A) (st : oarray) : oarray := snd (c st).
Definition result {A} (c : M A) (st : oarray) : outcome A := fst (c st).

End Selectable.

(** ** Vocabulary of the statements *)

Module Spec.

Import Selectable.

(** A list without its repetitions: each value at its first occurrence. *)
Fixpoint first_occurrences (l : list value) : list value :=
  match l with
  | [] => []
  | x :: rest => x :: filter (fun y => y <> x) (first_occurrences rest)
  end.

(** The selection a written list stands for: its items that are in the
    array, each once, in the order of their first occurrences. *)
Definition written_selection (array written : list value) : list value :=
  first_occurrences (filter (fun x => x ∈ array) written).

(** The loop of lines 92-98, on the selection alone. *)
Fixpoint select_from (array s items : list value) : list value :=
  match items with
  | [] => s
  | obj :: rest =>
      select_from array
        (if (Ko.arrayIndexOf s obj =? -1) && (0 <=? Ko.arrayIndexOf array obj)
         then s ++ [obj] else s)
        rest
  end.

(** The array after [selectable()] and after [selectable('multiple')]. *)
Definition single_selection (st : oarray) : Prop :=
  members st !! "selectedItem" = Some SelectedItem /\
  members st !! "selectedIndex" = Some SelectedIndex.

Definition multiple_selection (st : oarray) : Prop :=
  members st !! "selectedItems" = Some SelectedItems /\
  members st !! "selectedIndexes" = Some SelectedIndexes /\
  members st !! "selectedItem" = None.

(** ... with ['bindingTools']. *)
Definition has_bindingTools (st : oarray) : Prop :=
  members st !! "new" = Some New /\
  members st !! "clone" = Some Clone /\
  members st !! "delete" = Some Delete.

(** The selection is a subset of the array: the selected item, unless it is
    [null], and every one of the selected items are elements of it. *)
Definition selection_in_array (st : oarray) : Prop :=
  (single_selection st ->
   selected st <> VNull -> selected st ∈ underlyingArray st) /\
  (multiple_selection st ->
   forall x, x ∈ selectedItems st -> x ∈ underlyingArray st).

(** [ko.toJS] on objects whose properties hold primitive values: the copy
    is one new object with the same properties. *)
Definition toJS_flat (h : list obj) (v : value) : list obj * value :=
  match v with
  | VObj r => (h ++ [default ∅ (h !! r)], VObj (length h))
  | _ => (h, v)
  end.



(** A value for the parameter of [to_string], for the arrays that hold no
    number beyond 2^53, where it is not looked at. *)
Definition number_digits : Z -> string := pretty.

(** The array after a write of the selected items. *)
Definition with_selectedItems (st : oarray) (l : list value) : oarray :=
  OArray (self st) (heap st) (underlyingArray st) (members st) (selected st) l.

(** The array after a write of the selected item. *)
Definition with_selected (st : oarray) (v : value) : oarray :=
  OArray (self st) (heap st) (underlyingArray st) (members st) v
    (selectedItems st).

(** The mapping plugin when it is not loaded: [ko.mapping] is [undefined]. *)
Definition no_mapping : M value :=
  throw (TypeError "Cannot read property of undefined").

End Spec.

(** * Properties *)

(** ** The array functions *)

Section KoFacts.

Implicit Types (array : list value) (item : value).

Lemma strict_eq_true v w : strict_eq v w = true <-> v = w.
Proof. unfold strict_eq. apply bool_decide_eq_true. Qed.

Lemma strict_eq_false v w : strict_eq v w = false <-> v <> w.
Proof. unfold strict_eq. apply bool_decide_eq_false. Qed.

Lemma strict_eq_refl v : strict_eq v v = true.
Proof. by apply strict_eq_true. Qed.

Lemma arrayIndexOf_lower array item : -1 <= Ko.arrayIndexOf array item.
Proof.
  induction array as [|x rest IH]; simpl; [lia|].
  destruct (strict_eq x item); [lia|].
  destruct (Z.ltb_spec (Ko.arrayIndexOf rest item) 0); lia.
Qed.

Lemma arrayIndexOf_upper array item :
  Ko.arrayIndexOf array item < Z.of_nat (length array).
Proof.
  induction array as [|x rest IH]; simpl length; simpl Ko.arrayIndexOf; [lia|].
  destruct (strict_eq x item); [lia|].
  destruct (Z.ltb_spec (Ko.arrayIndexOf rest item) 0); lia.
Qed.

(** [indexOf] finds exactly the elements of the array. *)
Lemma arrayIndexOf_found array item :
  0 <= Ko.arrayIndexOf array item <-> item ∈ array.
Proof.
  induction array as [|x rest IH]; simpl.
  - split; [lia|]. by intros ?%elem_of_nil.
  - destruct (strict_eq x item) eqn:E.
    + apply strict_eq_true in E as ->. split; [intros _; left | lia].
    + apply strict_eq_false in E.
      destruct (Z.ltb_spec (Ko.arrayIndexOf rest item) 0) as [Hneg|Hpos].
      * split; [lia|]. intros [->|Hin]%elem_of_cons; [done|].
        apply IH in Hin. lia.
      * split; [|lia]. intros _. right. apply IH. lia.
Qed.

Lemma arrayIndexOf_missing array item :
  Ko.arrayIndexOf array item < 0 <-> item ∉ array.
Proof.
  rewrite <- arrayIndexOf_found. lia.
Qed.

Lemma arrayIndexOf_minus_one array item :
  Ko.arrayIndexOf array item = -1 <-> item ∉ array.
Proof.
  rewrite <- arrayIndexOf_missing.
  pose proof (arrayIndexOf_lower array item). lia.
Qed.

(** The index found is a position of the item, and the first one. *)
Lemma arrayIndexOf_lookup array item :
  item ∈ array ->
  array !! Z.to_nat (Ko.arrayIndexOf array item) = Some item /\
  forall j : nat, (j < Z.to_nat (Ko.arrayIndexOf array item))%nat ->
                  array !! j <> Some item.
Proof.
  induction array as [|x rest IH]; [by intros ?%elem_of_nil|].
  intros Hin. simpl Ko.arrayIndexOf.
  destruct (strict_eq x item) eqn:E.
  - apply strict_eq_true in E as ->. split; [done|]. intros j Hj. simpl in Hj. lia.
  - apply strict_eq_false in E.
    apply elem_of_cons in Hin as [->|Hin]; [done|].
    pose proof (proj2 (arrayIndexOf_found rest item) Hin) as Hfound.
    destruct (Z.ltb_spec (Ko.arrayIndexOf rest item) 0) as [Hneg|_]; [lia|].
    destruct (IH Hin) as [Hat Hfirst].
    replace (Z.to_nat (Ko.arrayIndexOf rest item + 1))
      with (S (Z.to_nat (Ko.arrayIndexOf rest item))) by lia.
    split; [done|].
    intros [|j] Hj; simpl.
    + intros [= ->]. done.
    + apply Hfirst. lia.
Qed.

Lemma index_lookup array (i : nat) v :
  array !! i = Some v -> Ko.index array (Z.of_nat i) = v.
Proof.
  intros Hi. unfold Ko.index.
  destruct (Z.ltb_spec (Z.of_nat i) 0); [lia|].
  by rewrite Nat2Z.id, Hi.
Qed.

Lemma elem_of_push array item x :
  x ∈ Ko.push array item <-> x ∈ array \/ x = item.
Proof. unfold Ko.push. rewrite elem_of_app, list_elem_of_singleton. done. Qed.

Lemma elem_of_remove array v x :
  x ∈ Ko.remove array v <-> x ∈ array /\ x <> v.
Proof.
  unfold Ko.remove. rewrite !list_elem_of_In, List.filter_In.
  rewrite negb_true_iff, strict_eq_false. done.
Qed.

Lemma removeAll_filter array vs :
  Ko.removeAll array vs = filter (fun x => x ∉ vs) array.
Proof.
  unfold Ko.removeAll.
  induction array as [|x rest IH]; [done|].
  simpl. rewrite IH, filter_cons.
  destruct (Z.leb_spec 0 (Ko.arrayIndexOf vs x)) as [Hin|Hout]; simpl.
  - apply arrayIndexOf_found in Hin. by rewrite decide_False by (intros ?; done).
  - apply arrayIndexOf_missing in Hout. by rewrite decide_True.
Qed.

Lemma elem_of_removeAll array vs x :
  x ∈ Ko.removeAll array vs <-> x ∈ array /\ x ∉ vs.
Proof. rewrite removeAll_filter, list_elem_of_filter. tauto. Qed.

End KoFacts.

(** ** The demo view-model *)

Section BetterListModelFacts.

Import BetterListModel.

(** C7: [removeSelected] takes every selected item out of [allItems],
    keeping the other items in their order, and empties [selectedItems]: an
    item that was selected is in neither array afterwards. *)
Theorem removeSelected_removes_and_clears (m : model) :
  allItems (removeSelected m)
    = filter (fun x => x ∉ selectedItems m) (allItems m) /\
  selectedItems (removeSelected m) = [] /\
  itemToAdd (removeSelected m) = itemToAdd m /\
  forall x, x ∈ selectedItems m ->
            (x ∉ allItems (removeSelected m)) /\
            (x ∉ selectedItems (removeSelected m)).
Proof.
  unfold removeSelected; simpl.
  rewrite removeAll_filter.
  repeat split; try done.
  - rewrite list_elem_of_filter. tauto.
  - by intros ?%elem_of_nil.
Qed.

Lemma removeSelected_removes_and_clears_witness :
  allItems (removeSelected init) = [VStr "Fries"; VStr "Eggs Benedict"; VStr "Cheese"] /\
  (VStr "Ham" ∉ allItems (removeSelected init)) /\
  (VStr "Ham" ∉ selectedItems (removeSelected init)).
Proof.
  destruct (removeSelected_removes_and_clears init) as (Hall & _ & _ & Hgone).
  split; [|apply Hgone; simpl; left].
  rewrite Hall. reflexivity.
Defined.

(** C10: [addItem] leaves [allItems] as it is or appends [itemToAdd]; what
    it appends is not the empty string and was not in [allItems], so a list
    without duplicates stays without duplicates; [itemToAdd] is the empty
    string afterwards in both cases. *)
Theorem addItem_no_blank_no_duplicate (m : model) :
  itemToAdd (addItem m) = VStr "" /\
  selectedItems (addItem m) = selectedItems m /\
  (allItems (addItem m) = allItems m \/
   allItems (addItem m) = allItems m ++ [itemToAdd m] /\
   itemToAdd m <> VStr "" /\
   (itemToAdd m ∉ allItems m)) /\
  (NoDup (allItems m) -> NoDup (allItems (addItem m))).
Proof.
  unfold addItem.
  destruct (loose_eq_empty (itemToAdd m)) eqn:Hblank; simpl.
  { repeat split; auto. }
  destruct (Z.ltb_spec (Ko.arrayIndexOf (allItems m) (itemToAdd m)) 0)
    as [Hnew|Hold]; simpl.
  - apply arrayIndexOf_missing in Hnew.
    repeat split; auto.
    + right. repeat split; auto.
      intros Heq. rewrite Heq in Hblank. discriminate.
    + intros Hnd. unfold Ko.push. apply NoDup_app. repeat split; auto.
      * intros x Hx ->%list_elem_of_singleton. done.
      * apply NoDup_singleton.
  - repeat split; auto.
Qed.

(** [addItem] does append a value that is new and not blank. *)
Lemma addItem_appends (m : model) :
  loose_eq_empty (itemToAdd m) = false ->
  itemToAdd m ∉ allItems m ->
  allItems (addItem m) = allItems m ++ [itemToAdd m].
Proof.
  intros Hblank Hnew. unfold addItem. rewrite Hblank. simpl.
  apply arrayIndexOf_missing in Hnew.
  destruct (Z.ltb_spec (Ko.arrayIndexOf (allItems m) (itemToAdd m)) 0); [done|lia].
Qed.

Lemma addItem_no_blank_no_duplicate_witness :
  NoDup (allItems (addItem (Model (VStr "Ham") (allItems init) [])))
  /\ allItems (addItem (Model (VStr "Ham") (allItems init) [])) = allItems init
  /\ allItems (addItem (Model (VStr "") (allItems init) [])) = allItems init.
Proof.
  split; [|split; reflexivity].
  apply (addItem_no_blank_no_duplicate (Model (VStr "Ham") (allItems init) [])).
  simpl. apply (bool_decide_unpack _). vm_compute. reflexivity.
Defined.

End BetterListModelFacts.

(** ** Running the script *)

Section Running.

Import Selectable Spec.

Lemma this_call_present {A} (name : string) (body : M A) (st : oarray) :
  is_Some (members st !! name) -> this_call name body st = body st.
Proof.
  intros [m Hm]. unfold this_call, bind, gets. by rewrite Hm.
Qed.

Lemma this_call_absent {A} (name : string) (body : M A) (st : oarray) :
  members st !! name = None ->
  this_call name body st
    = (Throw (TypeError (String.append name " is not a function")), st).
Proof.
  intros Hm. unfold this_call, bind, gets. by rewrite Hm.
Qed.

Lemma this_has_present (name : string) (st : oarray) :
  is_Some (members st !! name) -> this_has name st = (Ok true, st).
Proof.
  intros Hm. unfold this_has, bind, gets, ret. by rewrite bool_decide_eq_true_2.
Qed.

Lemma this_has_absent (name : string) (st : oarray) :
  members st !! name = None -> this_has name st = (Ok false, st).
Proof.
  intros Hm. unfold this_has, bind, gets, ret.
  rewrite bool_decide_eq_false_2; [done|]. rewrite Hm. by intros [? ?].
Qed.

Lemma select_loop_run (items : list value) (st : oarray) :
  arrayForEach items (fun obj =>
    do s <- gets selectedItems;
    do i <- this_indexOf obj;
    if (Ko.arrayIndexOf s obj =? -1) && (0 <=? i)
    then set_selectedItems (s ++ [obj])
    else ret tt) st
  = (Ok tt, OArray (self st) (heap st) (underlyingArray st) (members st)
                   (selected st)
                   (select_from (underlyingArray st) (selectedItems st) items)).
Proof.
  revert st. induction items as [|obj rest IH]; intros st.
  - by destruct st.
  - simpl. unfold bind at 1. unfold bind at 1. unfold gets at 1.
    unfold this_indexOf, bind at 1. unfold gets at 1. unfold bind at 1, ret at 1.
    destruct ((Ko.arrayIndexOf (selectedItems st) obj =? -1)
              && (0 <=? Ko.arrayIndexOf (underlyingArray st) obj)).
    + unfold set_selectedItems, modify. by rewrite IH.
    + unfold ret at 1. by rewrite IH.
Qed.

Lemma write_selectedItems_run (items : list value) (st : oarray) :
  write_selectedItems items st
  = (Ok tt, OArray (self st) (heap st) (underlyingArray st) (members st)
                   (selected st)
                   (select_from (underlyingArray st) [] items)).
Proof.
  unfold write_selectedItems. unfold bind at 1, set_selectedItems, modify.
  by rewrite select_loop_run.
Qed.

Lemma arrayMap_indexOf_run (s : list value) (st : oarray) :
  arrayMap s this_indexOf st
  = (Ok (map (Ko.arrayIndexOf (underlyingArray st)) s), st).
Proof.
  induction s as [|x rest IH]; [done|].
  simpl. unfold bind at 1. unfold this_indexOf at 1, bind at 1, gets, ret at 1.
  unfold bind. by rewrite IH.
Qed.

Lemma arrayMap_at_run (indexes : list Z) (st : oarray) :
  arrayMap indexes this_at st
  = (Ok (map (Ko.index (underlyingArray st)) indexes), st).
Proof.
  induction indexes as [|i rest IH]; [done|].
  simpl. unfold bind at 1. unfold this_at at 1, bind at 1, gets, ret at 1.
  unfold bind. by rewrite IH.
Qed.

Lemma write_selectedItem_run (object : value) (st : oarray) :
  write_selectedItem object st
  = (Ok tt, OArray (self st) (heap st) (underlyingArray st) (members st)
                   (if Ko.arrayIndexOf (underlyingArray st) object <? 0
                    then VNull else object)
                   (selectedItems st)).
Proof.
  unfold write_selectedItem, this_indexOf, bind, gets, ret.
  by destruct (Ko.arrayIndexOf (underlyingArray st) object <? 0).
Qed.

End Running.

(** ** Lists without repetitions *)

Section FirstOccurrences.

Import Spec.

Lemma elem_of_first_occurrences (l : list value) (x : value) :
  x ∈ first_occurrences l <-> x ∈ l.
Proof.
  induction l as [|y rest IH]; [done|].
  simpl. rewrite !elem_of_cons, list_elem_of_filter, IH.
  destruct (decide (x = y)); tauto.
Qed.

Lemma NoDup_first_occurrences (l : list value) : NoDup (first_occurrences l).
Proof.
  induction l as [|y rest IH]; simpl; [constructor|].
  apply NoDup_cons. split.
  - rewrite list_elem_of_filter. tauto.
  - by apply NoDup_filter.
Qed.

Lemma filter_all {A} (P : A -> Prop) `{!forall x, Decision (P x)} (l : list A) :
  (forall x, x ∈ l -> P x) -> filter P l = l.
Proof.
  induction l as [|y rest IH]; intros Hall; [done|].
  rewrite filter_cons_True by (apply Hall; left).
  f_equal. apply IH. intros x Hx. apply Hall. by right.
Qed.

(** A list without repetitions is its own list of first occurrences. *)
Lemma first_occurrences_NoDup (l : list value) :
  NoDup l -> first_occurrences l = l.
Proof.
  induction l as [|y rest IH]; [done|].
  intros [Hy Hnd]%NoDup_cons. simpl. rewrite (IH Hnd). f_equal.
  apply filter_all. intros x Hx ->. done.
Qed.

(** The first occurrences come in the order of the list. *)
Lemma first_occurrences_sublist (l : list value) :
  sublist (first_occurrences l) l.
Proof.
  induction l as [|y rest IH]; simpl; [constructor|].
  apply sublist_skip. etrans; [apply sublist_filter|done].
Qed.

(** The first occurrence of a value is kept where it stands: what comes
    before it is treated on its own, what comes after loses the values
    seen so far. *)
Lemma first_occurrences_app (l1 l2 : list value) :
  first_occurrences (l1 ++ l2)
  = first_occurrences l1 ++ filter (fun y => y ∉ l1) (first_occurrences l2).
Proof.
  induction l1 as [|x rest IH]; simpl.
  - symmetry. apply filter_all. intros y _. by intros ?%elem_of_nil.
  - f_equal. rewrite IH, filter_app. f_equal.
    rewrite list_filter_filter. apply list_filter_iff.
    intros y. rewrite elem_of_cons. tauto.
Qed.

(** The loop appends to the selection the written items it does not hold. *)
Lemma select_from_spec (array s items : list value) :
  select_from array s items
  = s ++ filter (fun y => y ∉ s) (written_selection array items).
Proof.
  unfold written_selection.
  revert s. induction items as [|obj rest IH]; intros s; simpl.
  - by rewrite app_nil_r.
  - rewrite IH. rewrite filter_cons.
    destruct (Z.leb_spec 0 (Ko.arrayIndexOf array obj)) as [Hin|Hout].
    + apply arrayIndexOf_found in Hin. rewrite decide_True by done.
      simpl first_occurrences.
      destruct (Z.eqb_spec (Ko.arrayIndexOf s obj) (-1)) as [Hnew|Hold]; simpl.
      * apply arrayIndexOf_minus_one in Hnew.
        rewrite filter_cons_True by done.
        rewrite <- app_assoc. simpl. do 2 f_equal.
        rewrite list_filter_filter. apply list_filter_iff.
        intros y. rewrite elem_of_app, list_elem_of_singleton. tauto.
      * assert (obj ∈ s) as Hs.
        { destruct (decide (obj ∈ s)) as [|Hn]; [done|].
          by apply arrayIndexOf_minus_one in Hn. }
        rewrite filter_cons_False by tauto.
        f_equal. rewrite list_filter_filter. apply list_filter_iff.
        intros y. split; [|tauto]. intros Hy. split; [done|]. by intros ->.
    + apply arrayIndexOf_missing in Hout. rewrite decide_False by done.
      by rewrite andb_false_r.
Qed.

Lemma select_from_nil (array items : list value) :
  select_from array [] items = written_selection array items.
Proof.
  rewrite select_from_spec. simpl. apply filter_all.
  intros y _. by intros ?%elem_of_nil.
Qed.

End FirstOccurrences.

(** ** The selection attributes *)

Section Attributes.

Import Selectable Spec.

Lemma multiple_selectedItems (st : oarray) :
  multiple_selection st -> is_Some (members st !! "selectedItems").
Proof. intros (H & _ & _). by rewrite H. Qed.

Lemma multiple_selectedIndexes (st : oarray) :
  multiple_selection st -> is_Some (members st !! "selectedIndexes").
Proof. intros (_ & H & _). by rewrite H. Qed.

Lemma single_selectedItem (st : oarray) :
  single_selection st -> is_Some (members st !! "selectedItem").
Proof. intros (H & _). by rewrite H. Qed.

Lemma read_selectedIndexes_run (st : oarray) :
  is_Some (members st !! "selectedItems") ->
  read_selectedIndexes st
  = (Ok (map (Ko.arrayIndexOf (underlyingArray st)) (selectedItems st)), st).
Proof.
  intros Hm. unfold read_selectedIndexes. unfold bind at 1.
  rewrite (this_call_present _ _ _ Hm). unfold read_selectedItems, gets.
  apply arrayMap_indexOf_run.
Qed.

Lemma write_selectedIndexes_run (indexes : list Z) (st : oarray) :
  is_Some (members st !! "selectedItems") ->
  write_selectedIndexes indexes st
  = (Ok tt, OArray (self st) (heap st) (underlyingArray st) (members st)
                   (selected st)
                   (written_selection (underlyingArray st)
                      (map (Ko.index (underlyingArray st)) indexes))).
Proof.
  intros Hm. unfold write_selectedIndexes. unfold bind at 1.
  rewrite arrayMap_at_run, (this_call_present _ _ _ Hm).
  by rewrite write_selectedItems_run, select_from_nil.
Qed.

(** C8: in a multiple selection array, writing a list to [selectedItems]
    returns without error and makes the selection the written items that are
    in the array, each once, in the order of their first occurrences in the
    written list; the array is not changed, and reading [selectedItems]
    gives that selection. *)
Theorem selectedItems_write_present_once (st : oarray) (items : list value) :
  multiple_selection st ->
  result (this_call "selectedItems" (write_selectedItems items)) st = Ok tt /\
  selectedItems (exec (this_call "selectedItems" (write_selectedItems items)) st)
    = written_selection (underlyingArray st) items /\
  underlyingArray (exec (this_call "selectedItems" (write_selectedItems items)) st)
    = underlyingArray st /\
  result (this_call "selectedItems" (write_selectedItems items) ;;
          this_call "selectedItems" read_selectedItems) st
    = Ok (written_selection (underlyingArray st) items) /\
  NoDup (written_selection (underlyingArray st) items) /\
  sublist (written_selection (underlyingArray st) items) items /\
  forall x, x ∈ written_selection (underlyingArray st) items
            <-> x ∈ items /\ x ∈ underlyingArray st.
Proof.
  intros Hm%multiple_selectedItems.
  unfold result, exec, bind.
  rewrite (this_call_present _ _ _ Hm), write_selectedItems_run, select_from_nil.
  rewrite this_call_present by done.
  simpl. do 4 (split; [done|]).
  split; [apply NoDup_first_occurrences|].
  unfold written_selection. split.
  - etrans; [apply first_occurrences_sublist|apply sublist_filter].
  - intros x. rewrite elem_of_first_occurrences, list_elem_of_filter. tauto.
Qed.

Lemma selectedItems_write_present_once_witness :
  selectedItems
    (exec (this_call "selectedItems"
             (write_selectedItems [VStr "b"; VStr "z"; VStr "a"; VStr "b"]))
       (exec (selectable ["multiple"%string])
          (observableArray 0 [] [VStr "a"; VStr "b"; VStr "c"])))
  = [VStr "b"; VStr "a"].
Proof.
  destruct (selectedItems_write_present_once
              (exec (selectable ["multiple"%string])
                 (observableArray 0 [] [VStr "a"; VStr "b"; VStr "c"]))
              [VStr "b"; VStr "z"; VStr "a"; VStr "b"])
    as (_ & Hsel & _).
  - repeat split.
  - rewrite Hsel. vm_compute. reflexivity.
Defined.

(** C9, as amended: in a multiple selection array, reading
    [selectedIndexes] gives, in the order of the selection, the index
    [indexOf] finds for each selected item, which for an item of the array is
    a position holding it; and writing a list of indexes that are in range,
    whose elements are pairwise distinct, and each of which is the first
    position of its element in the array, then reading [selectedIndexes],
    gives the written list back. *)
Theorem selectedIndexes_round_trip (st : oarray) (indexes : list Z) :
  multiple_selection st ->
  (forall i, i ∈ indexes -> 0 <= i < Z.of_nat (length (underlyingArray st))) ->
  NoDup (map (Ko.index (underlyingArray st)) indexes) ->
  (forall i, i ∈ indexes ->
     Ko.arrayIndexOf (underlyingArray st) (Ko.index (underlyingArray st) i) = i) ->
  result (this_call "selectedIndexes" read_selectedIndexes) st
    = Ok (map (Ko.arrayIndexOf (underlyingArray st)) (selectedItems st)) /\
  (forall x, x ∈ selectedItems st -> x ∈ underlyingArray st ->
     underlyingArray st !! Z.to_nat (Ko.arrayIndexOf (underlyingArray st) x)
       = Some x) /\
  result (this_call "selectedIndexes" (write_selectedIndexes indexes) ;;
          this_call "selectedIndexes" read_selectedIndexes) st
    = Ok indexes.
Proof.
  intros Hmulti Hrange Hdistinct Hfirst.
  pose proof (multiple_selectedItems _ Hmulti) as Hitems.
  pose proof (multiple_selectedIndexes _ Hmulti) as Hindexes.
  unfold result, bind.
  rewrite !(this_call_present _ _ _ Hindexes).
  rewrite read_selectedIndexes_run by done.
  rewrite write_selectedIndexes_run by done.
  rewrite this_call_present by done.
  rewrite read_selectedIndexes_run by done.
  simpl. split; [done|]. split.
  { intros x _ Hx. by apply arrayIndexOf_lookup. }
  f_equal.
  assert (written_selection (underlyingArray st)
            (map (Ko.index (underlyingArray st)) indexes)
          = map (Ko.index (underlyingArray st)) indexes) as ->.
  { unfold written_selection. rewrite filter_all.
    - by apply first_occurrences_NoDup.
    - intros x (i & -> & Hi)%list_elem_of_fmap.
      apply arrayIndexOf_found. rewrite (Hfirst i Hi). by apply Hrange. }
  rewrite map_map. rewrite <- (map_id indexes) at 2.
  apply map_ext_in. intros i Hi%list_elem_of_In. by apply Hfirst.
Qed.

Lemma selectedIndexes_round_trip_witness :
  result (this_call "selectedIndexes" (write_selectedIndexes [2; 0]) ;;
          this_call "selectedIndexes" read_selectedIndexes)
    (exec (selectable ["multiple"%string])
       (observableArray 0 [] [VStr "a"; VStr "b"; VStr "c"]))
  = Ok [2; 0].
Proof.
  apply (selectedIndexes_round_trip
           (exec (selectable ["multiple"%string])
              (observableArray 0 [] [VStr "a"; VStr "b"; VStr "c"]))
           [2; 0]).
  - repeat split.
  - intros i Hi.
    apply elem_of_cons in Hi as [->|Hi]; [by vm_compute|].
    apply list_elem_of_singleton in Hi as ->. by vm_compute.
  - apply (bool_decide_unpack _). vm_compute. reflexivity.
  - intros i Hi.
    apply elem_of_cons in Hi as [->|Hi]; [reflexivity|].
    apply list_elem_of_singleton in Hi as ->. reflexivity.
Defined.

(** C9, as stated, fails on an array that holds a value twice: index 1 of
    the array ["a", "a"] is in range and the one element it names is
    pairwise distinct, and reading after writing [1] gives [0]. *)
Lemma selectedIndexes_round_trip_counterexample :
  multiple_selection
    (exec (selectable ["multiple"%string])
       (observableArray 0 [] [VStr "a"; VStr "a"])) /\
  (forall i, i ∈ [1] -> 0 <= i < Z.of_nat (length [VStr "a"; VStr "a"])) /\
  NoDup (map (Ko.index [VStr "a"; VStr "a"]) [1]) /\
  result (this_call "selectedIndexes" (write_selectedIndexes [1]) ;;
          this_call "selectedIndexes" read_selectedIndexes)
    (exec (selectable ["multiple"%string])
       (observableArray 0 [] [VStr "a"; VStr "a"]))
  = Ok [0] /\
  result (this_call "selectedIndexes" (write_selectedIndexes [1]) ;;
          this_call "selectedIndexes" read_selectedIndexes)
    (exec (selectable ["multiple"%string])
       (observableArray 0 [] [VStr "a"; VStr "a"]))
  <> Ok [1].
Proof.
  split; [repeat split|].
  split. { intros i ->%list_elem_of_singleton. simpl. lia. }
  split. { apply (bool_decide_unpack _). vm_compute. reflexivity. }
  split; [reflexivity|]. discriminate.
Qed.

End Attributes.

(** ** [selectable] *)

Section SelectableCall.

Import Selectable Spec.

Lemma option_set_foldl (arguments : list string) (options : gmap string bool)
    (name : string) :
  option_set (foldl (fun options opt => <[opt := true]> options) options arguments)
             name = true
  <-> name ∈ arguments \/ option_set options name = true.
Proof.
  revert options. induction arguments as [|opt rest IH]; intros options; simpl.
  - rewrite elem_of_nil. tauto.
  - rewrite IH, elem_of_cons. unfold option_set.
    destruct (decide (name = opt)) as [->|Hne].
    + rewrite lookup_insert_eq. simpl. tauto.
    + rewrite lookup_insert_ne by done. tauto.
Qed.

(** An option is set when it is one of the arguments. *)
Lemma option_set_make_options (arguments : list string) (name : string) :
  option_set (make_options arguments) name = true <-> name ∈ arguments.
Proof.
  unfold make_options. rewrite option_set_foldl.
  unfold option_set. rewrite lookup_empty. simpl. split; [|tauto].
  intros [?|?]; [done|discriminate].
Qed.

End SelectableCall.

(** ** The binding tools *)

Section BindingToolsFacts.

Import Selectable Spec.

Lemma select_from_single (array : list value) (x : value) :
  x ∈ array -> select_from array [] [x] = [x].
Proof.
  intros Hx%arrayIndexOf_found. simpl.
  by destruct (Z.leb_spec 0 (Ko.arrayIndexOf array x)); [|lia].
Qed.

Lemma write_selectedItem_present (object : value) (st : oarray) :
  object ∈ underlyingArray st ->
  write_selectedItem object st
  = (Ok tt, OArray (self st) (heap st) (underlyingArray st) (members st)
                   object (selectedItems st)).
Proof.
  intros Hin%arrayIndexOf_found. rewrite write_selectedItem_run.
  by destruct (Z.ltb_spec (Ko.arrayIndexOf (underlyingArray st) object) 0); [lia|].
Qed.

Lemma arrayIndexOf_push_ltb (array : list value) (x : value) :
  (Ko.arrayIndexOf (Ko.push array x) x <? 0) = false.
Proof.
  apply Z.ltb_ge, arrayIndexOf_found, elem_of_push. by right.
Qed.

Lemma arrayIndexOf_push_leb (array : list value) (x : value) :
  (0 <=? Ko.arrayIndexOf (Ko.push array x) x) = true.
Proof.
  apply Z.leb_le, arrayIndexOf_found, elem_of_push. by right.
Qed.

Lemma bool_decide_is_Some {A} (x : A) : bool_decide (is_Some (Some x)) = true.
Proof. by apply bool_decide_eq_true_2. Qed.

Lemma bool_decide_is_None {A} : bool_decide (is_Some (@None A)) = false.
Proof. apply bool_decide_eq_false_2. by intros [? ?]. Qed.

Ltac unfold_script :=
  unfold new, clone, delete, clone_helper, new_object, get_prop, set_prop,
    this_has, this_call, this_push, this_remove, this_removeAll, this_indexOf,
    this_at, write_selectedItem, read_selectedItem, read_selectedItems,
    write_selectedItems, set_heap, set_underlyingArray, set_selected,
    set_selectedItems.

Ltac run :=
  repeat (progress (unfold_script; unfold bind, ret, gets, modify, throw; simpl)).

(** Running a script on an array whose members are known by the
    hypotheses [H1], [H2], [H3]. *)
Ltac run_with H1 H2 H3 :=
  repeat (progress
    (run;
     rewrite ?H1, ?H2, ?H3, ?bool_decide_is_Some, ?bool_decide_is_None,
       ?arrayIndexOf_push_ltb, ?arrayIndexOf_push_leb, ?strict_eq_refl)).

Lemma new_run_single (st : oarray) (arguments : list value) :
  single_selection st ->
  new None arguments st
  = (Ok (self st),
     OArray (self st) (heap st ++ [∅])
       (underlyingArray st ++ [VObj (length (heap st))]) (members st)
       (VObj (length (heap st))) (selectedItems st)).
Proof.
  intros [Hitem Hindex]. run_with Hitem Hitem Hitem. done.
Qed.

Lemma new_run_multiple (st : oarray) (arguments : list value) :
  multiple_selection st ->
  new None arguments st
  = (Ok (self st),
     OArray (self st) (heap st ++ [∅])
       (underlyingArray st ++ [VObj (length (heap st))]) (members st)
       (selected st) [VObj (length (heap st))]).
Proof.
  intros (Hitems & Hindexes & Hnone). run_with Hitems Hnone Hnone. done.
Qed.

(** C5: on an array with the binding tools and without a [create] method,
    [new], whatever its arguments, returns the array, allocates one object
    without properties at a reference that was not in use, appends it to the
    array, whose former contents stay, and selects it: it is [selectedItem]
    in a single selection array and the only element of [selectedItems] in a
    multiple selection array. *)
Theorem new_appends_and_selects (st : oarray) (arguments : list value) :
  has_bindingTools st ->
  single_selection st \/ multiple_selection st ->
  result (this_call "new" (new None arguments)) st = Ok (self st) /\
  heap st !! length (heap st) = None /\
  heap (exec (this_call "new" (new None arguments)) st) = heap st ++ [∅] /\
  underlyingArray (exec (this_call "new" (new None arguments)) st)
    = underlyingArray st ++ [VObj (length (heap st))] /\
  (single_selection st ->
     selected (exec (this_call "new" (new None arguments)) st)
       = VObj (length (heap st)) /\
     result (this_call "new" (new None arguments) ;;
             this_call "selectedItem" read_selectedItem) st
       = Ok (VObj (length (heap st)))) /\
  (multiple_selection st ->
     selectedItems (exec (this_call "new" (new None arguments)) st)
       = [VObj (length (heap st))]).
Proof.
  intros (Hnew & _ & _) Hmode.
  unfold result, exec, bind.
  rewrite !this_call_present by (by rewrite Hnew).
  split; [|split; [by apply lookup_ge_None_2|]].
  - destruct Hmode as [H|H];
      [by rewrite new_run_single|by rewrite new_run_multiple].
  - destruct Hmode as [Hsingle|Hmulti].
    + rewrite new_run_single by done. simpl.
      do 2 (split; [done|]). split.
      * intros _. split; [done|].
        rewrite this_call_present; [done|]. simpl. by apply single_selectedItem.
      * intros (_ & _ & Hnone). destruct Hsingle as [Hsome _]. congruence.
    + rewrite new_run_multiple by done. simpl.
      do 2 (split; [done|]). split; [|done].
      intros [Hsome _]. destruct Hmulti as (_ & _ & Hnone). congruence.
Qed.

Lemma new_appends_and_selects_witness :
  underlyingArray
    (exec (this_call "new" (new None [VStr "event"]))
       (exec (selectable ["bindingTools"%string])
          (observableArray 0 [] [VStr "a"])))
  = [VStr "a"; VObj 0] /\
  selected
    (exec (this_call "new" (new None [VStr "event"]))
       (exec (selectable ["bindingTools"%string])
          (observableArray 0 [] [VStr "a"])))
  = VObj 0.
Proof.
  destruct (new_appends_and_selects
              (exec (selectable ["bindingTools"%string])
                 (observableArray 0 [] [VStr "a"]))
              [VStr "event"])
    as (_ & _ & _ & Harray & Hsingle & _).
  - repeat split.
  - left. repeat split.
  - split; [exact Harray|]. apply Hsingle. repeat split.
Defined.

(** *** [delete] *)

(** [delete] on a single selection array, whatever its argument. *)
Lemma delete_run_single (st : oarray) (object : value) :
  single_selection st ->
  delete object st
  = (Ok (self st),
     OArray (self st) (heap st)
       (Ko.remove (underlyingArray st) (js_or object (selected st)))
       (members st)
       (if strict_eq (selected st) object then VNull else selected st)
       (selectedItems st)).
Proof.
  intros [Hitem Hindex]. unfold js_or.
  destruct (truthy object) eqn:Hobject;
    destruct (strict_eq (selected st) object) eqn:Hsame;
    run_with Hitem Hobject Hsame;
    try done;
    match goal with
    | |- context [Ko.arrayIndexOf ?a VNull <? 0] =>
        by destruct (Ko.arrayIndexOf a VNull <? 0)
    end.
Qed.

(** [delete] on a multiple selection array, with an argument: line 209
    throws after line 208 has removed the argument from the array. *)
Lemma delete_run_multiple_object (st : oarray) (object : value) :
  multiple_selection st -> truthy object = true ->
  delete object st
  = (Throw (TypeError "this.selectedItems.remove is not a function"),
     OArray (self st) (heap st) (Ko.remove (underlyingArray st) object)
       (members st) (selected st) (selectedItems st)).
Proof.
  intros (Hitems & Hindexes & Hnone) Hobject.
  run_with Hitems Hnone Hobject. done.
Qed.

(** [delete] on a multiple selection array, without argument. *)
Lemma delete_run_multiple_selection (st : oarray) (object : value) :
  multiple_selection st -> truthy object = false ->
  delete object st
  = (Ok (self st),
     OArray (self st) (heap st)
       (Ko.removeAll (underlyingArray st) (selectedItems st))
       (members st) (selected st) []).
Proof.
  intros (Hitems & Hindexes & Hnone) Hobject.
  run_with Hitems Hnone Hobject. done.
Qed.

(** Without argument, [delete] on a multiple selection array removes the
    selected items from the array and empties the selection. *)
Lemma delete_selection_multiple (st : oarray) :
  has_bindingTools st -> multiple_selection st ->
  result (this_call "delete" (delete VUndefined)) st = Ok (self st) /\
  selectedItems (exec (this_call "delete" (delete VUndefined)) st) = [] /\
  underlyingArray (exec (this_call "delete" (delete VUndefined)) st)
    = filter (fun x => x ∉ selectedItems st) (underlyingArray st).
Proof.
  intros (_ & _ & Hdelete) Hmulti. unfold result, exec.
  rewrite this_call_present by (by rewrite Hdelete).
  rewrite delete_run_multiple_selection by done. simpl.
  by rewrite removeAll_filter.
Qed.

(** With the selected item as its argument, [delete] on a single selection
    array removes it from the array and deselects it. *)
Lemma delete_selected_object_single (st : oarray) :
  has_bindingTools st -> single_selection st ->
  truthy (selected st) = true ->
  selected (exec (this_call "delete" (delete (selected st))) st) = VNull /\
  (selected st ∉ underlyingArray (exec (this_call "delete" (delete (selected st))) st)).
Proof.
  intros (_ & _ & Hdelete) Hsingle Htruthy. unfold exec.
  rewrite this_call_present by (by rewrite Hdelete).
  rewrite delete_run_single by done. simpl.
  rewrite strict_eq_refl. split; [done|].
  unfold js_or. rewrite Htruthy, elem_of_remove. tauto.
Qed.

(** C2, what the code does: on a single selection array with the binding
    tools whose selected item is neither [null] nor [undefined], [delete]
    without argument removes the selected item from the array and returns,
    but line 203 compares the selection with the absent argument and does
    not deselect: [selectedItem()] is still the removed item, not [null]. *)
Theorem delete_without_argument_keeps_selectedItem (st : oarray) :
  has_bindingTools st ->
  single_selection st ->
  selected st <> VNull ->
  selected st <> VUndefined ->
  result (this_call "delete" (delete VUndefined)) st = Ok (self st) /\
  underlyingArray (exec (this_call "delete" (delete VUndefined)) st)
    = Ko.remove (underlyingArray st) (selected st) /\
  (selected st ∉ underlyingArray (exec (this_call "delete" (delete VUndefined)) st)) /\
  result (this_call "delete" (delete VUndefined) ;;
          this_call "selectedItem" read_selectedItem) st
    = Ok (selected st) /\
  result (this_call "delete" (delete VUndefined) ;;
          this_call "selectedItem" read_selectedItem) st
    <> Ok VNull.
Proof.
  intros (_ & _ & Hdelete) Hsingle Hnull Hundefined.
  pose proof (single_selectedItem _ Hsingle) as Hitem.
  assert (strict_eq (selected st) VUndefined = false) as Hsame
    by (by apply strict_eq_false).
  unfold result, exec, bind.
  rewrite !this_call_present by (by rewrite Hdelete).
  rewrite delete_run_single by done. rewrite Hsame. simpl.
  rewrite this_call_present by done. simpl.
  split; [done|]. split; [done|].
  split; [rewrite elem_of_remove; tauto|].
  split; [done|]. congruence.
Qed.

(** C3, what the code does: on a multiple selection array with the binding
    tools, [delete] called with an object removes the object from the array
    and then throws at line 209, where [this.selectedItems] is a computed
    and has no [remove]: the selection is as it was, and an object that was
    selected is still selected and no longer in the array. *)
Theorem delete_object_multiple_throws (st : oarray) (object : value) :
  has_bindingTools st ->
  multiple_selection st ->
  truthy object = true ->
  result (this_call "delete" (delete object)) st
    = Throw (TypeError "this.selectedItems.remove is not a function") /\
  underlyingArray (exec (this_call "delete" (delete object)) st)
    = Ko.remove (underlyingArray st) object /\
  selectedItems (exec (this_call "delete" (delete object)) st)
    = selectedItems st /\
  (object ∉ underlyingArray (exec (this_call "delete" (delete object)) st)) /\
  (object ∈ selectedItems st ->
   object ∈ selectedItems (exec (this_call "delete" (delete object)) st)).
Proof.
  intros (_ & _ & Hdelete) Hmulti Hobject.
  unfold result, exec.
  rewrite !this_call_present by (by rewrite Hdelete).
  rewrite delete_run_multiple_object by done. simpl.
  do 3 (split; [done|]).
  split; [rewrite elem_of_remove; tauto|done].
Qed.

(** *** The selection and the array *)

(** Writing the selection keeps it in the array. *)
Lemma write_selectedItem_in_array (st : oarray) (object : value) :
  single_selection st ->
  selection_in_array (exec (this_call "selectedItem" (write_selectedItem object)) st).
Proof.
  intros Hsingle. pose proof (single_selectedItem _ Hsingle) as Hitem.
  unfold exec. rewrite this_call_present by done.
  rewrite write_selectedItem_run. split; simpl.
  - intros _ Hselected.
    destruct (Z.ltb_spec (Ko.arrayIndexOf (underlyingArray st) object) 0);
      [done|]. by apply arrayIndexOf_found.
  - intros (_ & _ & Hnone). destruct Hsingle as [Hsome _].
    simpl in Hnone. congruence.
Qed.

Lemma write_selectedItems_in_array (st : oarray) (items : list value) :
  multiple_selection st ->
  selection_in_array (exec (this_call "selectedItems" (write_selectedItems items)) st).
Proof.
  intros Hmulti. pose proof (multiple_selectedItems _ Hmulti) as Hitems.
  unfold exec. rewrite this_call_present by done.
  rewrite write_selectedItems_run, select_from_nil. split; simpl.
  - intros [Hsome _]. destruct Hmulti as (_ & _ & Hnone).
    simpl in Hsome. congruence.
  - intros _ x. unfold written_selection.
    rewrite elem_of_first_occurrences, list_elem_of_filter. tauto.
Qed.

Lemma write_selectedIndex_in_array (st : oarray) (i : Z) :
  single_selection st ->
  selection_in_array (exec (this_call "selectedIndex" (write_selectedIndex i)) st).
Proof.
  intros Hsingle. pose proof (write_selectedItem_in_array st
                                (Ko.index (underlyingArray st) i) Hsingle) as Hinv.
  destruct Hsingle as [Hitem Hindex].
  unfold exec in *. rewrite this_call_present by (by rewrite Hindex).
  by unfold write_selectedIndex, bind, this_at, gets, ret.
Qed.

Lemma write_selectedIndexes_in_array (st : oarray) (indexes : list Z) :
  multiple_selection st ->
  selection_in_array
    (exec (this_call "selectedIndexes" (write_selectedIndexes indexes)) st).
Proof.
  intros Hmulti.
  pose proof (write_selectedItems_in_array st
                (map (Ko.index (underlyingArray st)) indexes) Hmulti) as Hinv.
  pose proof (multiple_selectedItems _ Hmulti) as Hitems.
  pose proof (multiple_selectedIndexes _ Hmulti) as Hindexes.
  unfold exec in *. rewrite this_call_present by done.
  rewrite write_selectedIndexes_run by done.
  by rewrite this_call_present, write_selectedItems_run, select_from_nil in Hinv.
Qed.

(** So does [new]. *)
Lemma new_in_array (st : oarray) (arguments : list value) :
  has_bindingTools st ->
  single_selection st \/ multiple_selection st ->
  selection_in_array (exec (this_call "new" (new None arguments)) st).
Proof.
  intros (Hnew & _ & _) Hmode. unfold exec.
  rewrite this_call_present by (by rewrite Hnew).
  destruct Hmode as [Hsingle|Hmulti].
  - rewrite new_run_single by done. split; simpl.
    + intros _ _. apply elem_of_app. right. by left.
    + intros (_ & _ & Hnone). destruct Hsingle as [Hsome _].
      simpl in Hnone. congruence.
  - rewrite new_run_multiple by done. split; simpl.
    + intros [Hsome _]. destruct Hmulti as (_ & _ & Hnone).
      simpl in Hsome. congruence.
    + intros _ x ->%list_elem_of_singleton. apply elem_of_app. right. by left.
Qed.

(** *** [clone] *)

Variable number_to_string : Z -> string.
Variable ko_toJS : list obj -> value -> list obj * value.
Variable ko_mapping_toJS : value -> M value.
Variable ko_mapping_fromJS : value -> value -> M value.





End BindingToolsFacts.

(** ** The tools on small arrays *)

Section Scenarios.

Import Selectable Spec.


Lemma delete_without_argument_keeps_selectedItem_witness :
  result (this_call "delete" (delete VUndefined) ;;
          this_call "selectedItem" read_selectedItem)
    (exec (this_call "selectedItem" (write_selectedItem (VObj 0)))
       (exec (selectable ["bindingTools"%string])
          (observableArray 0 [∅; ∅] [VObj 0; VObj 1])))
  = Ok (VObj 0) /\
  underlyingArray
    (exec (this_call "delete" (delete VUndefined))
       (exec (this_call "selectedItem" (write_selectedItem (VObj 0)))
          (exec (selectable ["bindingTools"%string])
             (observableArray 0 [∅; ∅] [VObj 0; VObj 1]))))
  = [VObj 1].
Proof.
  destruct (delete_without_argument_keeps_selectedItem
              (exec (this_call "selectedItem" (write_selectedItem (VObj 0)))
                 (exec (selectable ["bindingTools"%string])
                    (observableArray 0 [∅; ∅] [VObj 0; VObj 1]))))
    as (_ & Harray & _ & Hread & _).
  - repeat split.
  - repeat split.
  - discriminate.
  - discriminate.
  - split; [exact Hread|]. rewrite Harray. reflexivity.
Defined.

Lemma delete_object_multiple_throws_witness :
  result (this_call "delete" (delete (VObj 0)))
    (exec (this_call "selectedItems" (write_selectedItems [VObj 0]))
       (exec (selectable ["multiple"%string; "bindingTools"%string])
          (observableArray 0 [∅; ∅] [VObj 0; VObj 1])))
  = Throw (TypeError "this.selectedItems.remove is not a function") /\
  selectedItems
    (exec (this_call "delete" (delete (VObj 0)))
       (exec (this_call "selectedItems" (write_selectedItems [VObj 0]))
          (exec (selectable ["multiple"%string; "bindingTools"%string])
             (observableArray 0 [∅; ∅] [VObj 0; VObj 1]))))
  = [VObj 0] /\
  underlyingArray
    (exec (this_call "delete" (delete (VObj 0)))
       (exec (this_call "selectedItems" (write_selectedItems [VObj 0]))
          (exec (selectable ["multiple"%string; "bindingTools"%string])
             (observableArray 0 [∅; ∅] [VObj 0; VObj 1]))))
  = [VObj 1].
Proof.
  destruct (delete_object_multiple_throws
              (exec (this_call "selectedItems" (write_selectedItems [VObj 0]))
                 (exec (selectable ["multiple"%string; "bindingTools"%string])
                    (observableArray 0 [∅; ∅] [VObj 0; VObj 1])))
              (VObj 0))
    as (Hthrow & Harray & Hselection & _).
  - repeat split.
  - repeat split.
  - reflexivity.
  - split; [exact Hthrow|]. split.
    + rewrite Hselection. reflexivity.
    + rewrite Harray. reflexivity.
Defined.

(** C1, what the code does: the selection does not stay in the array.  On
    the single selection array of the objects 0 and 1 with object 0
    selected, the selection is in the array, and after [delete()] it is not:
    object 0 is selected and the array holds object 1 only.  On the multiple
    selection array of the same objects with object 0 selected, the same
    holds after [delete(object 0)]. *)
Theorem delete_breaks_selection_in_array :
  selection_in_array
    (exec (this_call "selectedItem" (write_selectedItem (VObj 0)))
       (exec (selectable ["bindingTools"%string])
          (observableArray 0 [∅; ∅] [VObj 0; VObj 1]))) /\
  ~ selection_in_array
      (exec (this_call "delete" (delete VUndefined))
         (exec (this_call "selectedItem" (write_selectedItem (VObj 0)))
            (exec (selectable ["bindingTools"%string])
               (observableArray 0 [∅; ∅] [VObj 0; VObj 1])))) /\
  selection_in_array
    (exec (this_call "selectedItems" (write_selectedItems [VObj 0]))
       (exec (selectable ["multiple"%string; "bindingTools"%string])
          (observableArray 0 [∅; ∅] [VObj 0; VObj 1]))) /\
  ~ selection_in_array
      (exec (this_call "delete" (delete (VObj 0)))
         (exec (this_call "selectedItems" (write_selectedItems [VObj 0]))
            (exec (selectable ["multiple"%string; "bindingTools"%string])
               (observableArray 0 [∅; ∅] [VObj 0; VObj 1])))).
Proof.
  split; [|split; [|split]].
  - apply write_selectedItem_in_array. repeat split.
  - intros [Hsingle _].
    assert (VObj 0 ∈ [VObj 1]) as Hin.
    { apply Hsingle; [repeat split|discriminate]. }
    apply list_elem_of_singleton in Hin. discriminate.
  - apply write_selectedItems_in_array. repeat split.
  - intros [_ Hmulti].
    assert (VObj 0 ∈ [VObj 1]) as Hin.
    { apply (Hmulti ltac:(repeat split) (VObj 0)). left. }
    apply list_elem_of_singleton in Hin. discriminate.
Qed.

End Scenarios.

(** * Further properties *)

(** ** Sorting *)

Section SortFacts.

Variable number_to_string : Z -> string.

Lemma units_leb_total (u v : list N) : units_leb u v = true \/ units_leb v u = true.
Proof.
  revert v. induction u as [|a u IH]; intros [|b v]; simpl; auto.
  destruct (N.ltb_spec a b), (N.ltb_spec b a); auto; lia.
Qed.

Lemma units_leb_trans (u v w : list N) :
  units_leb u v = true -> units_leb v w = true -> units_leb u w = true.
Proof.
  revert v w. induction u as [|a u IH]; intros [|b v] [|c w]; simpl; try done.
  destruct (N.ltb_spec a b), (N.ltb_spec b a), (N.ltb_spec b c),
    (N.ltb_spec c b), (N.ltb_spec a c), (N.ltb_spec c a);
    try done; try lia.
  apply IH.
Qed.

Lemma string_leb_total (s t : string) :
  string_leb s t = true \/ string_leb t s = true.
Proof. apply units_leb_total. Qed.

Lemma string_leb_trans (s1 s2 s3 : string) :
  string_leb s1 s2 = true -> string_leb s2 s3 = true -> string_leb s1 s3 = true.
Proof. apply units_leb_trans. Qed.

Lemma sort_le_total (x y : value) :
  Ko.sort_le number_to_string x y = true \/ Ko.sort_le number_to_string y x = true.
Proof.
  destruct x, y; simpl; auto; apply string_leb_total.
Qed.

Lemma sort_le_trans (x y z : value) :
  Ko.sort_le number_to_string x y = true -> Ko.sort_le number_to_string y z = true -> Ko.sort_le number_to_string x z = true.
Proof.
  destruct x, y, z; simpl; try done; apply string_leb_trans.
Qed.

Lemma sort_insert_Permutation (x : value) (l : list value) :
  Ko.sort_insert number_to_string x l ≡ₚ x :: l.
Proof.
  induction l as [|y rest IH]; simpl; [done|].
  destruct (Ko.sort_le number_to_string x y); [done|].
  rewrite IH. apply Permutation_swap.
Qed.

Lemma sort_Permutation (l : list value) : Ko.sort number_to_string l ≡ₚ l.
Proof.
  induction l as [|x rest IH]; simpl; [done|].
  by rewrite sort_insert_Permutation, IH.
Qed.

Lemma sort_insert_sorted (x : value) (l : list value) :
  StronglySorted (fun a b => Ko.sort_le number_to_string a b = true) l ->
  StronglySorted (fun a b => Ko.sort_le number_to_string a b = true) (Ko.sort_insert number_to_string x l).
Proof.
  induction l as [|y rest IH]; simpl; intros Hsorted.
  - repeat constructor.
  - destruct (Ko.sort_le number_to_string x y) eqn:Hxy.
    + constructor; [done|]. constructor; [done|].
      apply StronglySorted_inv in Hsorted as [_ Hall].
      eapply Forall_impl; [exact Hall|]. intros z Hz. by eapply sort_le_trans.
    + apply StronglySorted_inv in Hsorted as [Hrest Hall].
      constructor; [by apply IH|].
      rewrite sort_insert_Permutation. constructor; [|done].
      by destruct (sort_le_total x y) as [Hle|Hle]; [congruence|].
Qed.

Lemma sort_sorted (l : list value) :
  StronglySorted (fun a b => Ko.sort_le number_to_string a b = true) (Ko.sort number_to_string l).
Proof.
  induction l as [|x rest IH]; simpl; [constructor|].
  by apply sort_insert_sorted.
Qed.

(** An array that is in order is left as it is. *)
Lemma sort_of_sorted (l : list value) :
  StronglySorted (fun a b => Ko.sort_le number_to_string a b = true) l -> Ko.sort number_to_string l = l.
Proof.
  induction l as [|x rest IH]; [done|].
  intros [Hrest Hall]%StronglySorted_inv. simpl. rewrite (IH Hrest).
  destruct rest as [|y rest']; [done|]. simpl.
  apply Forall_cons in Hall as [Hxy _]. by rewrite Hxy.
Qed.

End SortFacts.

(** ** More on the demo view-model *)

Section BetterListModelMore.

Import BetterListModel.

(** X1: [addItem] appends [itemToAdd] exactly when it is not [==] to the
    empty string and is not in [allItems]; the items that were there stay
    in front, in their order. *)
Theorem addItem_appends_exactly_when_new (m : model) :
  (allItems (addItem m) = allItems m ++ [itemToAdd m]
   <-> loose_eq_empty (itemToAdd m) = false /\ (itemToAdd m ∉ allItems m)) /\
  allItems m `prefix_of` allItems (addItem m).
Proof.
  unfold addItem.
  destruct (loose_eq_empty (itemToAdd m)) eqn:Hblank; simpl.
  { split; [|done]. split; [|by intros [? _]].
    intros Heq%(f_equal length). rewrite length_app in Heq. simpl in Heq. lia. }
  destruct (Z.ltb_spec (Ko.arrayIndexOf (allItems m) (itemToAdd m)) 0)
    as [Hnew|Hold]; simpl.
  - apply arrayIndexOf_missing in Hnew. split; [done|]. by apply prefix_app_r.
  - apply arrayIndexOf_found in Hold. split; [|done]. split; [|tauto].
    intros Heq%(f_equal length). rewrite length_app in Heq. simpl in Heq. lia.
Qed.

(** X2: the number 0 and [false] are blank for [addItem] as the empty string
    is, since line 28 compares with [!=]: none of the three is added. *)
Theorem addItem_blank_values (m : model) :
  itemToAdd m ∈ [VStr ""; VNum 0; VBool false] ->
  allItems (addItem m) = allItems m /\ itemToAdd (addItem m) = VStr "".
Proof.
  intros Hblank. unfold addItem.
  assert (loose_eq_empty (itemToAdd m) = true) as ->; [|done].
  repeat (apply elem_of_cons in Hblank as [->|Hblank]; [done|]).
  by apply elem_of_nil in Hblank.
Qed.

Lemma addItem_blank_values_witness :
  allItems (addItem (Model (VNum 0) (allItems init) [])) = allItems init.
Proof.
  apply (addItem_blank_values (Model (VNum 0) (allItems init) [])).
  simpl. right. left.
Defined.

(** X3: a second [addItem] in a row changes nothing: the first one has
    emptied [itemToAdd]. *)
Theorem addItem_twice (m : model) : addItem (addItem m) = addItem m.
Proof. reflexivity. Qed.

(** X4: [removeSelected] a second time changes nothing, and on a model
    without selection it leaves [allItems] as it is. *)
Theorem removeSelected_twice (m : model) :
  removeSelected (removeSelected m) = removeSelected m /\
  (selectedItems m = [] -> removeSelected m = m).
Proof.
  assert (forall l : list value, Ko.removeAll l [] = l) as Hnone.
  { intros l. rewrite removeAll_filter. apply filter_all.
    intros x _. by intros ?%elem_of_nil. }
  unfold removeSelected; simpl. rewrite Hnone. split; [done|].
  intros Hsel. destruct m as [i a s]. simpl in *. subst s. by rewrite Hnone.
Qed.

Lemma removeSelected_twice_witness :
  removeSelected (Model (VStr "x") [VStr "a"; VStr "b"] [])
  = Model (VStr "x") [VStr "a"; VStr "b"] [].
Proof.
  apply (removeSelected_twice (Model (VStr "x") [VStr "a"; VStr "b"] [])).
  reflexivity.
Defined.

Variable number_to_string : Z -> string.

(** X5: [sortItems] rearranges [allItems], without losing or adding an
    item, into the order of [sort]: every item comes before the items after
    it, [undefined] last and the other values by the UTF-16 code units of
    their strings.  It leaves
    [itemToAdd] and [selectedItems] as they are. *)
Theorem sortItems_sorts (m : model) :
  allItems (sortItems number_to_string m) ≡ₚ allItems m /\
  StronglySorted (fun a b => Ko.sort_le number_to_string a b = true) (allItems (sortItems number_to_string m)) /\
  itemToAdd (sortItems number_to_string m) = itemToAdd m /\
  selectedItems (sortItems number_to_string m) = selectedItems m.
Proof.
  unfold sortItems; simpl. split; [apply sort_Permutation|].
  split; [apply sort_sorted|done].
Qed.

(** X6: [sortItems] leaves a list that is in order as it is, so a second
    [sortItems] in a row changes nothing. *)
Theorem sortItems_twice (m : model) :
  (StronglySorted (fun a b => Ko.sort_le number_to_string a b = true) (allItems m) ->
   sortItems number_to_string m = m) /\
  sortItems number_to_string (sortItems number_to_string m) = sortItems number_to_string m.
Proof.
  split.
  - intros Hsorted. destruct m as [i a s]. unfold sortItems; simpl in *.
    by rewrite sort_of_sorted.
  - unfold sortItems; simpl. by rewrite (sort_of_sorted _ _ (sort_sorted _ _)).
Qed.

Lemma step_keeps_consistent (m : model) (a : action) :
  NoDup (allItems m) -> selectedItems m ⊆ allItems m ->
  NoDup (allItems (step number_to_string m a)) /\ selectedItems (step number_to_string m a) ⊆ allItems (step number_to_string m a).
Proof.
  intros Hnd Hsub. destruct a as [v| | |]; simpl.
  - done.
  - unfold addItem.
    destruct (negb (loose_eq_empty (itemToAdd m))
              && (Ko.arrayIndexOf (allItems m) (itemToAdd m) <? 0)) eqn:Hadd;
      simpl; [|done].
    apply andb_true_iff in Hadd as [_ Hnew%Z.ltb_lt%arrayIndexOf_missing].
    split.
    + unfold Ko.push. apply NoDup_app. repeat split; [done| |apply NoDup_singleton].
      intros x Hx ->%list_elem_of_singleton. done.
    + intros x Hx. apply elem_of_push. left. by apply Hsub.
  - rewrite removeAll_filter. split; [by apply NoDup_filter|].
    intros x Hx. by apply elem_of_nil in Hx.
  - split.
    + by rewrite sort_Permutation.
    + intros x Hx. rewrite sort_Permutation. by apply Hsub.
Qed.

(** X7: whatever is typed and whichever of [addItem], [removeSelected] and
    [sortItems] are called, in any order, a view-model whose [allItems] has
    no duplicates and holds its [selectedItems] stays so; the view-model of
    line 43 is one. *)
Theorem run_keeps_consistent (actions : list action) (m : model) :
  NoDup (allItems m) -> selectedItems m ⊆ allItems m ->
  NoDup (allItems (run number_to_string actions m)) /\
  selectedItems (run number_to_string actions m) ⊆ allItems (run number_to_string actions m).
Proof.
  unfold run. revert m. induction actions as [|a rest IH]; intros m Hnd Hsub.
  - done.
  - simpl. destruct (step_keeps_consistent m a Hnd Hsub) as [Hnd' Hsub'].
    by apply IH.
Qed.

End BetterListModelMore.

Section BetterListModelScenarios.

Import BetterListModel.

Lemma sortItems_twice_witness :
  allItems (sortItems Spec.number_digits init)
    = [VStr "Cheese"; VStr "Eggs Benedict"; VStr "Fries"; VStr "Ham"] /\
  sortItems Spec.number_digits (sortItems Spec.number_digits init)
  = sortItems Spec.number_digits init.
Proof.
  split; [reflexivity|]. apply (sortItems_twice Spec.number_digits init).
Defined.

Lemma run_keeps_consistent_witness :
  NoDup (allItems (run Spec.number_digits [WriteItemToAdd (VStr "Ham"); AddItem;
                        WriteItemToAdd (VStr "Apple"); AddItem;
                        SortItems; RemoveSelected] init)) /\
  allItems (run Spec.number_digits [WriteItemToAdd (VStr "Ham"); AddItem;
                 WriteItemToAdd (VStr "Apple"); AddItem;
                 SortItems; RemoveSelected] init)
    = [VStr "Apple"; VStr "Cheese"; VStr "Eggs Benedict"; VStr "Fries"].
Proof.
  split; [|reflexivity].
  apply (run_keeps_consistent Spec.number_digits
           [WriteItemToAdd (VStr "Ham"); AddItem;
            WriteItemToAdd (VStr "Apple"); AddItem;
            SortItems; RemoveSelected] init).
  - apply (bool_decide_unpack _). vm_compute. reflexivity.
  - intros x ->%list_elem_of_singleton. simpl. do 2 right. left.
Defined.

End BetterListModelScenarios.

(** ** The first view-model *)

Section FirstNameFacts.

Import FirstName.

(** X8: [addName] has no guard: called [n] times in a row it appends [n]
    copies of [fName], blank or already there as it may be, and leaves
    [fName] as it is. *)
Theorem addName_repeated (n : nat) (m : model) :
  array (Nat.iter n addName m) = array m ++ replicate n (fName m) /\
  fName (Nat.iter n addName m) = fName m.
Proof.
  induction n as [|n [IHarray IHname]]; simpl.
  - by rewrite app_nil_r.
  - unfold Ko.push. rewrite IHarray, IHname. split; [|done].
    rewrite <- app_assoc. f_equal.
    change (fName m :: replicate n (fName m)) with (replicate (S n) (fName m)).
    by rewrite replicate_S_end.
Qed.

End FirstNameFacts.

(** ** More on the selection attributes *)

Section AttributesMore.

Import Selectable Spec.

Lemma index_in_range (array : list value) (i : Z) :
  0 <= i < Z.of_nat (length array) -> Ko.index array i ∈ array.
Proof.
  intros Hi. unfold Ko.index.
  destruct (Z.ltb_spec i 0); [lia|].
  destruct (lookup_lt_is_Some_2 array (Z.to_nat i)) as [v Hv]; [lia|].
  rewrite Hv. simpl. by eapply list_elem_of_lookup_2.
Qed.

Lemma index_out_of_range (array : list value) (i : Z) :
  ~ (0 <= i < Z.of_nat (length array)) -> Ko.index array i = VUndefined.
Proof.
  intros Hi. unfold Ko.index.
  destruct (Z.ltb_spec i 0); [done|].
  rewrite lookup_ge_None_2; [done|lia].
Qed.

Lemma read_selectedIndex_run (st : oarray) :
  read_selectedIndex st
  = (Ok (Ko.arrayIndexOf (underlyingArray st) (selected st)), st).
Proof. done. Qed.

Lemma write_selectedIndex_run (i : Z) (st : oarray) :
  is_Some (members st !! "selectedItem") ->
  write_selectedIndex i st
  = write_selectedItem (Ko.index (underlyingArray st) i) st.
Proof.
  intros Hm. unfold write_selectedIndex, this_at.
  unfold bind, gets, ret. by rewrite this_call_present.
Qed.

Lemma arrayIndexOf_ltb_found (array : list value) (x : value) :
  x ∈ array -> (Ko.arrayIndexOf array x <? 0) = false.
Proof. intros Hx%arrayIndexOf_found. by apply Z.ltb_ge. Qed.

Lemma arrayIndexOf_ltb_missing (array : list value) (x : value) :
  x ∉ array -> (Ko.arrayIndexOf array x <? 0) = true.
Proof. intros Hx%arrayIndexOf_missing. by apply Z.ltb_lt. Qed.

(** X9: in a single selection array, writing to [selectedItem] an element
    of the array selects it; writing anything else does not keep the former
    selection but clears it: [selectedItem()] is [null].  The array is not
    changed. *)
Theorem selectedItem_write_then_read (st : oarray) (object : value) :
  single_selection st ->
  (object ∈ underlyingArray st ->
   result (this_call "selectedItem" (write_selectedItem object) ;;
           this_call "selectedItem" read_selectedItem) st = Ok object) /\
  (object ∉ underlyingArray st ->
   result (this_call "selectedItem" (write_selectedItem object) ;;
           this_call "selectedItem" read_selectedItem) st = Ok VNull) /\
  underlyingArray (exec (this_call "selectedItem" (write_selectedItem object)) st)
    = underlyingArray st.
Proof.
  intros Hsingle. pose proof (single_selectedItem _ Hsingle) as Hitem.
  unfold result, exec, bind.
  rewrite !this_call_present by done. rewrite write_selectedItem_run.
  rewrite this_call_present by done. simpl.
  split; [|split; [|done]]; intros Hin.
  - by rewrite arrayIndexOf_ltb_found.
  - by rewrite arrayIndexOf_ltb_missing.
Qed.

Lemma selectedItem_write_then_read_witness :
  result (this_call "selectedItem" (write_selectedItem (VStr "z")) ;;
          this_call "selectedItem" read_selectedItem)
    (exec (this_call "selectedItem" (write_selectedItem (VStr "a")))
       (exec (selectable []) (observableArray 0 [] [VStr "a"; VStr "b"])))
  = Ok VNull.
Proof.
  apply (selectedItem_write_then_read
           (exec (this_call "selectedItem" (write_selectedItem (VStr "a")))
              (exec (selectable []) (observableArray 0 [] [VStr "a"; VStr "b"])))
           (VStr "z")).
  - repeat split.
  - apply (bool_decide_unpack _). vm_compute. reflexivity.
Defined.

(** X10: in a single selection array, writing to [selectedIndex] an index
    that is in range and is the first position of its element selects that
    element, and [selectedIndex()] is the index written. *)
Theorem selectedIndex_round_trip (st : oarray) (i : Z) :
  single_selection st ->
  0 <= i < Z.of_nat (length (underlyingArray st)) ->
  Ko.arrayIndexOf (underlyingArray st) (Ko.index (underlyingArray st) i) = i ->
  result (this_call "selectedIndex" (write_selectedIndex i) ;;
          this_call "selectedIndex" read_selectedIndex) st = Ok i /\
  result (this_call "selectedIndex" (write_selectedIndex i) ;;
          this_call "selectedItem" read_selectedItem) st
    = Ok (Ko.index (underlyingArray st) i).
Proof.
  intros Hsingle Hrange Hfirst.
  pose proof (single_selectedItem _ Hsingle) as Hitem.
  assert (is_Some (members st !! "selectedIndex")) as Hindex
    by (destruct Hsingle as [_ ->]; done).
  unfold result, bind.
  rewrite !(this_call_present "selectedIndex" (write_selectedIndex i)) by done.
  rewrite write_selectedIndex_run, write_selectedItem_run by done.
  rewrite arrayIndexOf_ltb_found by (by apply index_in_range).
  rewrite !this_call_present by done.
  rewrite read_selectedIndex_run. simpl. by rewrite Hfirst.
Qed.

Lemma selectedIndex_round_trip_witness :
  result (this_call "selectedIndex" (write_selectedIndex 1) ;;
          this_call "selectedItem" read_selectedItem)
    (exec (selectable []) (observableArray 0 [] [VStr "a"; VStr "b"]))
  = Ok (VStr "b").
Proof.
  apply (selectedIndex_round_trip
           (exec (selectable []) (observableArray 0 [] [VStr "a"; VStr "b"])) 1).
  - repeat split.
  - by vm_compute.
  - reflexivity.
Defined.

(** X11: in a single selection array that holds neither [undefined] nor
    [null], writing to [selectedIndex] an index that is out of range
    deselects: [selectedItem()] is [null] and [selectedIndex()] is -1. *)
Theorem selectedIndex_out_of_range (st : oarray) (i : Z) :
  single_selection st ->
  ~ (0 <= i < Z.of_nat (length (underlyingArray st))) ->
  VUndefined ∉ underlyingArray st ->
  VNull ∉ underlyingArray st ->
  result (this_call "selectedIndex" (write_selectedIndex i) ;;
          this_call "selectedItem" read_selectedItem) st = Ok VNull /\
  result (this_call "selectedIndex" (write_selectedIndex i) ;;
          this_call "selectedIndex" read_selectedIndex) st = Ok (-1).
Proof.
  intros Hsingle Hrange Hundefined Hnull.
  pose proof (single_selectedItem _ Hsingle) as Hitem.
  assert (is_Some (members st !! "selectedIndex")) as Hindex
    by (destruct Hsingle as [_ ->]; done).
  unfold result, bind.
  rewrite !(this_call_present "selectedIndex" (write_selectedIndex i)) by done.
  rewrite write_selectedIndex_run, write_selectedItem_run by done.
  rewrite index_out_of_range by done.
  rewrite arrayIndexOf_ltb_missing by done.
  rewrite !this_call_present by done.
  rewrite read_selectedIndex_run. simpl. split; [done|].
  f_equal. by apply arrayIndexOf_minus_one.
Qed.

Lemma selectedIndex_out_of_range_witness :
  result (this_call "selectedIndex" (write_selectedIndex 5) ;;
          this_call "selectedIndex" read_selectedIndex)
    (exec (this_call "selectedItem" (write_selectedItem (VStr "a")))
       (exec (selectable []) (observableArray 0 [] [VStr "a"; VStr "b"])))
  = Ok (-1).
Proof.
  apply (selectedIndex_out_of_range
           (exec (this_call "selectedItem" (write_selectedItem (VStr "a")))
              (exec (selectable []) (observableArray 0 [] [VStr "a"; VStr "b"])))
           5).
  - repeat split.
  - vm_compute. intros [_ Hlt]. discriminate.
  - apply (bool_decide_unpack _). vm_compute. reflexivity.
  - apply (bool_decide_unpack _). vm_compute. reflexivity.
Defined.

End AttributesMore.

Section MultipleMore.

Import Selectable Spec.

(** A selection without repetitions that is in the array is its own
    written selection. *)
Lemma written_selection_fixed (array s : list value) :
  NoDup s -> (forall x, x ∈ s -> x ∈ array) -> written_selection array s = s.
Proof.
  intros Hnd Hin. unfold written_selection.
  rewrite filter_all by done. by apply first_occurrences_NoDup.
Qed.

Lemma written_selection_NoDup (array items : list value) :
  NoDup (written_selection array items).
Proof. apply NoDup_first_occurrences. Qed.

Lemma written_selection_in_array (array items : list value) (x : value) :
  x ∈ written_selection array items -> x ∈ array.
Proof.
  unfold written_selection.
  rewrite elem_of_first_occurrences, list_elem_of_filter. tauto.
Qed.

(** X12: in a multiple selection array, writing back to [selectedItems]
    the selection a write has left changes nothing; so does writing back
    any selection that has no repetitions and is in the array. *)
Theorem selectedItems_write_back (st : oarray) (items : list value) :
  multiple_selection st ->
  exec (this_call "selectedItems" (write_selectedItems items) ;;
        do s <- this_call "selectedItems" read_selectedItems;
        this_call "selectedItems" (write_selectedItems s)) st
  = exec (this_call "selectedItems" (write_selectedItems items)) st /\
  (NoDup (selectedItems st) ->
   (forall x, x ∈ selectedItems st -> x ∈ underlyingArray st) ->
   exec (do s <- this_call "selectedItems" read_selectedItems;
         this_call "selectedItems" (write_selectedItems s)) st = st).
Proof.
  intros Hmulti%multiple_selectedItems.
  unfold exec, bind.
  rewrite !(this_call_present "selectedItems" (write_selectedItems items)) by done.
  rewrite write_selectedItems_run, select_from_nil.
  rewrite !this_call_present by done.
  unfold read_selectedItems, gets.
  rewrite !this_call_present by done.
  rewrite !write_selectedItems_run, !select_from_nil. simpl. split.
  - rewrite written_selection_fixed;
      [done|apply written_selection_NoDup|apply written_selection_in_array].
  - intros Hnd Hin. rewrite written_selection_fixed by done. by destruct st.
Qed.

Lemma selectedItems_write_back_witness :
  exec (this_call "selectedItems" (write_selectedItems [VStr "b"; VStr "z"; VStr "b"]) ;;
        do s <- this_call "selectedItems" read_selectedItems;
        this_call "selectedItems" (write_selectedItems s))
    (exec (selectable ["multiple"%string])
       (observableArray 0 [] [VStr "a"; VStr "b"]))
  = exec (this_call "selectedItems" (write_selectedItems [VStr "b"; VStr "z"; VStr "b"]))
      (exec (selectable ["multiple"%string])
         (observableArray 0 [] [VStr "a"; VStr "b"])).
Proof.
  apply (selectedItems_write_back
           (exec (selectable ["multiple"%string])
              (observableArray 0 [] [VStr "a"; VStr "b"]))
           [VStr "b"; VStr "z"; VStr "b"]).
  repeat split.
Defined.

(** X13: in a multiple selection array, after any write to
    [selectedItems], [selectedIndexes()] has one index for each selected
    item, every index is a position of the array (never -1), and no index
    comes twice. *)
Theorem selectedIndexes_after_write (st : oarray) (items : list value) :
  multiple_selection st ->
  result (this_call "selectedItems" (write_selectedItems items) ;;
          this_call "selectedIndexes" read_selectedIndexes) st
    = Ok (map (Ko.arrayIndexOf (underlyingArray st))
              (written_selection (underlyingArray st) items)) /\
  Forall (fun i => 0 <= i < Z.of_nat (length (underlyingArray st)))
         (map (Ko.arrayIndexOf (underlyingArray st))
              (written_selection (underlyingArray st) items)) /\
  NoDup (map (Ko.arrayIndexOf (underlyingArray st))
             (written_selection (underlyingArray st) items)).
Proof.
  intros Hmulti.
  pose proof (multiple_selectedItems _ Hmulti) as Hitems.
  pose proof (multiple_selectedIndexes _ Hmulti) as Hindexes.
  split; [|split].
  - unfold result, bind.
    rewrite this_call_present, write_selectedItems_run, select_from_nil by done.
    rewrite this_call_present by done.
    by rewrite read_selectedIndexes_run.
  - apply Forall_forall. intros i (x & -> & Hx)%list_elem_of_fmap.
    apply written_selection_in_array in Hx.
    pose proof (arrayIndexOf_upper (underlyingArray st) x).
    apply arrayIndexOf_found in Hx. lia.
  - apply NoDup_fmap_2_strong; [|apply written_selection_NoDup].
    intros x y Hx%written_selection_in_array Hy%written_selection_in_array Heq.
    destruct (arrayIndexOf_lookup _ _ Hx) as [Hlx _].
    destruct (arrayIndexOf_lookup _ _ Hy) as [Hly _].
    rewrite Heq in Hlx. congruence.
Qed.

Lemma selectedIndexes_after_write_witness :
  result (this_call "selectedItems" (write_selectedItems [VStr "b"; VStr "z"; VStr "a"]) ;;
          this_call "selectedIndexes" read_selectedIndexes)
    (exec (selectable ["multiple"%string])
       (observableArray 0 [] [VStr "a"; VStr "b"]))
  = Ok [1; 0].
Proof.
  destruct (selectedIndexes_after_write
              (exec (selectable ["multiple"%string])
                 (observableArray 0 [] [VStr "a"; VStr "b"]))
              [VStr "b"; VStr "z"; VStr "a"]) as (Hread & _).
  - repeat split.
  - rewrite Hread. vm_compute. reflexivity.
Defined.

Lemma filter_present_in_range (array : list value) (indexes : list Z) :
  VUndefined ∉ array ->
  filter (fun x => x ∈ array) (map (Ko.index array) indexes)
  = map (Ko.index array)
        (filter (fun i => 0 <= i < Z.of_nat (length array)) indexes).
Proof.
  intros Hundefined. induction indexes as [|i rest IH]; [done|].
  simpl. rewrite !filter_cons.
  destruct (decide (0 <= i < Z.of_nat (length array))) as [Hin|Hout].
  - rewrite decide_True by (by apply index_in_range). simpl. by rewrite IH.
  - rewrite index_out_of_range by done. by rewrite decide_False.
Qed.

(** X14: in a multiple selection array that does not hold [undefined],
    the indexes written to [selectedIndexes] that are out of range are
    ignored: the write does what the write of the indexes in range does. *)
Theorem selectedIndexes_out_of_range_ignored (st : oarray) (indexes : list Z) :
  multiple_selection st ->
  VUndefined ∉ underlyingArray st ->
  this_call "selectedIndexes" (write_selectedIndexes indexes) st
  = this_call "selectedIndexes"
      (write_selectedIndexes
         (filter (fun i => 0 <= i < Z.of_nat (length (underlyingArray st))) indexes))
      st.
Proof.
  intros Hmulti Hundefined.
  pose proof (multiple_selectedItems _ Hmulti) as Hitems.
  pose proof (multiple_selectedIndexes _ Hmulti) as Hindexes.
  rewrite !this_call_present by done.
  rewrite !write_selectedIndexes_run by done.
  unfold written_selection.
  rewrite (filter_present_in_range _ indexes Hundefined).
  rewrite (filter_present_in_range _ (filter _ indexes) Hundefined).
  do 4 f_equal. symmetry. apply filter_all.
  intros i Hi%list_elem_of_filter. tauto.
Qed.

Lemma selectedIndexes_out_of_range_ignored_witness :
  selectedItems
    (exec (this_call "selectedIndexes" (write_selectedIndexes [7; 1; -1]))
       (exec (selectable ["multiple"%string])
          (observableArray 0 [] [VStr "a"; VStr "b"])))
  = [VStr "b"].
Proof.
  unfold exec at 1.
  rewrite (selectedIndexes_out_of_range_ignored
             (exec (selectable ["multiple"%string])
                (observableArray 0 [] [VStr "a"; VStr "b"]))
             [7; 1; -1]).
  - reflexivity.
  - repeat split.
  - apply (bool_decide_unpack _). vm_compute. reflexivity.
Defined.

(** X15: a write to any of the four attributes leaves the selection in the
    array, whatever is written and whatever the selection was before. *)
Theorem attribute_writes_keep_selection_in_array (st : oarray) :
  (single_selection st ->
   forall (object : value) (i : Z),
     selection_in_array
       (exec (this_call "selectedItem" (write_selectedItem object)) st) /\
     selection_in_array
       (exec (this_call "selectedIndex" (write_selectedIndex i)) st)) /\
  (multiple_selection st ->
   forall (items : list value) (indexes : list Z),
     selection_in_array
       (exec (this_call "selectedItems" (write_selectedItems items)) st) /\
     selection_in_array
       (exec (this_call "selectedIndexes" (write_selectedIndexes indexes)) st)).
Proof.
  split; intros Hmode; split.
  - by apply write_selectedItem_in_array.
  - by apply write_selectedIndex_in_array.
  - by apply write_selectedItems_in_array.
  - by apply write_selectedIndexes_in_array.
Qed.

Lemma attribute_writes_keep_selection_in_array_witness :
  selection_in_array
    (exec (this_call "selectedIndexes" (write_selectedIndexes [3; 0]))
       (exec (selectable ["multiple"%string])
          (observableArray 0 [] [VStr "a"; VStr "b"]))).
Proof.
  apply (attribute_writes_keep_selection_in_array
           (exec (selectable ["multiple"%string])
              (observableArray 0 [] [VStr "a"; VStr "b"]))).
  - repeat split.
  - exact [].
Defined.

End MultipleMore.

(** ** More on [selectable] *)

Section SelectableMore.

Import Selectable Spec.

(** The array [selectable] leaves, by the two options it reads. *)
Lemma selectable_run (arguments : list string) (st : oarray) :
  selectable arguments st
  = (Ok (self st),
     OArray (self st) (heap st) (underlyingArray st)
       ((if option_set (make_options arguments) "bindingTools"
         then fun ms => <["new" := New]> (<["delete" := Delete]> (<["clone" := Clone]> ms))
         else fun ms => ms)
          (if option_set (make_options arguments) "multiple"
           then <["selected" := SelectedItems]>
                  (<["selectedIndexes" := SelectedIndexes]>
                     (<["selectedItems" := SelectedItems]> (members st)))
           else <["selected" := SelectedItem]>
                  (<["selectedIndex" := SelectedIndex]>
                     (<["selectedItem" := SelectedItem]> (members st)))))
       (if option_set (make_options arguments) "multiple"
        then selected st else VNull)
       (if option_set (make_options arguments) "multiple"
        then [] else selectedItems st)).
Proof.
  unfold selectable.
  destruct (option_set (make_options arguments) "multiple");
    destruct (option_set (make_options arguments) "bindingTools");
    unfold alias_selected, set_member, set_selected, set_selectedItems;
    unfold bind, modify, gets, ret; simpl;
    rewrite ?(lookup_insert_ne _ "selectedIndexes" "selectedItems") by done;
    rewrite ?(lookup_insert_ne _ "selectedIndex" "selectedItem") by done;
    rewrite ?lookup_insert_eq; done.
Qed.

Lemma option_set_true (arguments : list string) (name : string) :
  name ∈ arguments -> option_set (make_options arguments) name = true.
Proof. apply option_set_make_options. Qed.

Lemma option_set_false (arguments : list string) (name : string) :
  name ∉ arguments -> option_set (make_options arguments) name = false.
Proof.
  intros Hout. destruct (option_set (make_options arguments) name) eqn:E; [|done].
  by apply option_set_make_options in E.
Qed.

(** X16: [selectable] starts with nothing selected, also on an array that
    had a selection from an earlier call: with ['multiple'],
    [selectedItems()] and [selectedIndexes()] are empty; without,
    [selectedItem()] is [null].  The property [selected] is the same
    computed as [selectedItems], respectively [selectedItem]. *)
Theorem selectable_starts_unselected (arguments : list string) (st : oarray) :
  ("multiple"%string ∈ arguments ->
     result (selectable arguments ;;
             this_call "selectedItems" read_selectedItems) st = Ok [] /\
     result (selectable arguments ;;
             this_call "selectedIndexes" read_selectedIndexes) st = Ok [] /\
     members (exec (selectable arguments) st) !! "selected"
       = members (exec (selectable arguments) st) !! "selectedItems") /\
  ("multiple"%string ∉ arguments ->
     result (selectable arguments ;;
             this_call "selectedItem" read_selectedItem) st = Ok VNull /\
     members (exec (selectable arguments) st) !! "selected"
       = members (exec (selectable arguments) st) !! "selectedItem").
Proof.
  split.
  - intros Hin%option_set_true. unfold result, exec, bind.
    rewrite !selectable_run, Hin.
    destruct (option_set (make_options arguments) "bindingTools");
      (rewrite !this_call_present by (simpl; by simplify_map_eq));
      (rewrite read_selectedIndexes_run by (simpl; by simplify_map_eq));
      simpl; by simplify_map_eq.
  - intros Hout%option_set_false. unfold result, exec, bind.
    rewrite !selectable_run, Hout.
    destruct (option_set (make_options arguments) "bindingTools");
      (rewrite !this_call_present by (simpl; by simplify_map_eq));
      simpl; by simplify_map_eq.
Qed.

Lemma selectable_starts_unselected_witness :
  result (selectable [] ;; this_call "selectedItem" read_selectedItem)
    (exec (this_call "selectedItem" (write_selectedItem (VStr "a")))
       (exec (selectable []) (observableArray 0 [] [VStr "a"])))
  = Ok VNull.
Proof.
  apply (selectable_starts_unselected []
           (exec (this_call "selectedItem" (write_selectedItem (VStr "a")))
              (exec (selectable []) (observableArray 0 [] [VStr "a"])))).
  by intros ?%elem_of_nil.
Defined.

(** X17: on an observable array that has not been extended before,
    [selectable] defines no more than it is asked: without ['bindingTools']
    there is no [new], [clone] or [delete], and calling one throws a
    TypeError and changes nothing; with ['multiple'] there is no
    [selectedItem] and no [selectedIndex], without it no [selectedItems] and
    no [selectedIndexes]. *)
Theorem selectable_defines_no_more (arguments : list string)
    (id : nat) (h : list obj) (initial : list value) :
  ("bindingTools"%string ∉ arguments ->
     forall name : string, name ∈ ["new"; "clone"; "delete"]%string ->
     forall (A : Type) (body : M A),
       this_call name body (exec (selectable arguments) (observableArray id h initial))
       = (Throw (TypeError (String.append name " is not a function")),
          exec (selectable arguments) (observableArray id h initial))) /\
  ("multiple"%string ∈ arguments ->
     members (exec (selectable arguments) (observableArray id h initial))
       !! "selectedItem" = None /\
     members (exec (selectable arguments) (observableArray id h initial))
       !! "selectedIndex" = None) /\
  ("multiple"%string ∉ arguments ->
     members (exec (selectable arguments) (observableArray id h initial))
       !! "selectedItems" = None /\
     members (exec (selectable arguments) (observableArray id h initial))
       !! "selectedIndexes" = None).
Proof.
  unfold exec. rewrite selectable_run. simpl. split; [|split].
  - intros Hout%option_set_false name Hname A body. rewrite Hout.
    apply this_call_absent. simpl.
    repeat (apply elem_of_cons in Hname as [->|Hname];
            [destruct (option_set (make_options arguments) "multiple");
             by simplify_map_eq|]).
    by apply elem_of_nil in Hname.
  - intros Hin%option_set_true. rewrite Hin.
    destruct (option_set (make_options arguments) "bindingTools");
      by simplify_map_eq.
  - intros Hout%option_set_false. rewrite Hout.
    destruct (option_set (make_options arguments) "bindingTools");
      by simplify_map_eq.
Qed.

Lemma selectable_defines_no_more_witness :
  result (this_call "delete" (delete VUndefined))
    (exec (selectable ["multiple"%string]) (observableArray 0 [] [VStr "a"]))
  = Throw (TypeError "delete is not a function").
Proof.
  unfold result.
  rewrite (proj1 (selectable_defines_no_more ["multiple"%string] 0 [] [VStr "a"])).
  - reflexivity.
  - intros Hin%list_elem_of_singleton. discriminate.
  - do 2 right. left.
Defined.

(** X18: [selectable] reads of its arguments only whether ['multiple'] and
    ['bindingTools'] are among them: their order, their repetition and any
    other argument make no difference. *)
Theorem selectable_reads_two_options (arguments1 arguments2 : list string)
    (st : oarray) :
  ("multiple"%string ∈ arguments1 <-> "multiple"%string ∈ arguments2) ->
  ("bindingTools"%string ∈ arguments1 <-> "bindingTools"%string ∈ arguments2) ->
  selectable arguments1 st = selectable arguments2 st.
Proof.
  intros Hmultiple Htools.
  assert (forall name : string,
            (name ∈ arguments1 <-> name ∈ arguments2) ->
            option_set (make_options arguments1) name
            = option_set (make_options arguments2) name) as Hsame.
  { intros name Hiff.
    destruct (option_set (make_options arguments1) name) eqn:E1;
      destruct (option_set (make_options arguments2) name) eqn:E2; try done.
    - apply option_set_make_options, Hiff, option_set_make_options in E1.
      congruence.
    - apply option_set_make_options, Hiff, option_set_make_options in E2.
      congruence. }
  rewrite !selectable_run.
  by rewrite (Hsame _ Hmultiple), (Hsame _ Htools).
Qed.

Lemma selectable_reads_two_options_witness :
  selectable ["bindingTools"; "multiple"]%string (observableArray 0 [] [])
  = selectable ["multiple"; "color"; "bindingTools"; "multiple"]%string
      (observableArray 0 [] []).
Proof.
  apply selectable_reads_two_options.
  - split; intros _; [left|right; left].
  - split; intros _; [do 2 right; left|left].
Defined.

End SelectableMore.

(** ** More on the binding tools *)

Section ToolsMore.

Import Selectable Spec.

Ltac unfold_tools :=
  unfold new, clone, delete, clone_helper, new_object, get_prop, set_prop,
    this_has, this_call, this_push, this_remove, this_removeAll, this_indexOf,
    this_at, write_selectedItem, read_selectedItem, read_selectedItems,
    write_selectedItems, set_heap, set_underlyingArray, set_selected,
    set_selectedItems.

Ltac run_tools H1 H2 H3 :=
  repeat (progress
    (unfold_tools; unfold bind, ret, gets, modify, throw; simpl;
     rewrite ?H1, ?H2, ?H3, ?bool_decide_is_Some, ?bool_decide_is_None,
       ?arrayIndexOf_push_ltb, ?arrayIndexOf_push_leb, ?strict_eq_refl)).

Lemma remove_missing (array : list value) (v : value) :
  v ∉ array -> Ko.remove array v = array.
Proof.
  intros Hout. unfold Ko.remove.
  induction array as [|x rest IH]; [done|].
  apply not_elem_of_cons in Hout as [Hne Hrest]. simpl.
  rewrite (proj2 (strict_eq_false x v)) by done. simpl. by rewrite IH.
Qed.

(** X19: on a single selection array, [delete] with a truthy argument
    returns the array, removes every occurrence of the argument from the
    array, deselects when the argument is the selected item and keeps the
    selection otherwise: a selection that was in the array is still in
    it. *)
Theorem delete_object_single (st : oarray) (object : value) :
  has_bindingTools st ->
  single_selection st ->
  truthy object = true ->
  selection_in_array st ->
  result (this_call "delete" (delete object)) st = Ok (self st) /\
  underlyingArray (exec (this_call "delete" (delete object)) st)
    = Ko.remove (underlyingArray st) object /\
  (object ∉ underlyingArray (exec (this_call "delete" (delete object)) st)) /\
  (selected st = object ->
   selected (exec (this_call "delete" (delete object)) st) = VNull) /\
  (selected st <> object ->
   selected (exec (this_call "delete" (delete object)) st) = selected st) /\
  selection_in_array (exec (this_call "delete" (delete object)) st).
Proof.
  intros (_ & _ & Hdelete) Hsingle Hobject [Hinv _].
  unfold result, exec.
  rewrite !this_call_present by (by rewrite Hdelete).
  rewrite delete_run_single by done. unfold js_or. rewrite Hobject. simpl.
  do 2 (split; [done|]).
  split; [rewrite elem_of_remove; tauto|].
  split; [intros ->; by rewrite strict_eq_refl|].
  split; [intros Hne%strict_eq_false; by rewrite Hne|].
  split; simpl.
  - intros _. destruct (strict_eq (selected st) object) eqn:Hsame; [done|].
    apply strict_eq_false in Hsame. intros Hnull.
    apply elem_of_remove. split; [by apply Hinv|done].
  - intros (_ & _ & Hnone). destruct Hsingle as [Hsome _].
    simpl in Hnone. congruence.
Qed.

(** X20: on a multiple selection array, [delete] with a falsy argument
    (none, [null], 0, the empty string, [false]) returns the array, removes
    every selected item from the array and empties the selection; the
    argument itself is not looked for. *)
Theorem delete_selection_multiple_clears (st : oarray) (object : value) :
  has_bindingTools st ->
  multiple_selection st ->
  truthy object = false ->
  result (this_call "delete" (delete object)) st = Ok (self st) /\
  selectedItems (exec (this_call "delete" (delete object)) st) = [] /\
  underlyingArray (exec (this_call "delete" (delete object)) st)
    = filter (fun x => x ∉ selectedItems st) (underlyingArray st) /\
  (forall x, x ∈ selectedItems st ->
             x ∉ underlyingArray (exec (this_call "delete" (delete object)) st)) /\
  selection_in_array (exec (this_call "delete" (delete object)) st).
Proof.
  intros (_ & _ & Hdelete) Hmulti Hobject.
  unfold result, exec.
  rewrite !this_call_present by (by rewrite Hdelete).
  rewrite delete_run_multiple_selection by done. simpl.
  rewrite removeAll_filter. do 3 (split; [done|]). split.
  - intros x Hx. rewrite list_elem_of_filter. tauto.
  - split; simpl.
    + intros [Hsome _]. destruct Hmulti as (_ & _ & Hnone).
      simpl in Hsome. congruence.
    + intros _ x Hx. by apply elem_of_nil in Hx.
Qed.

(** X21: on a single selection array with nothing selected, [delete]
    without argument looks for [null]: it removes the [null] entries of
    the array, and changes nothing when the array has none. *)
Theorem delete_nothing_selected (st : oarray) :
  has_bindingTools st ->
  single_selection st ->
  selected st = VNull ->
  result (this_call "delete" (delete VUndefined)) st = Ok (self st) /\
  underlyingArray (exec (this_call "delete" (delete VUndefined)) st)
    = Ko.remove (underlyingArray st) VNull /\
  selected (exec (this_call "delete" (delete VUndefined)) st) = VNull /\
  (VNull ∉ underlyingArray st ->
   exec (this_call "delete" (delete VUndefined)) st = st).
Proof.
  intros (_ & _ & Hdelete) Hsingle Hnull.
  unfold result, exec.
  rewrite !this_call_present by (by rewrite Hdelete).
  rewrite delete_run_single by done. rewrite Hnull. simpl.
  do 3 (split; [done|]).
  intros Hout. rewrite remove_missing by done.
  destruct st; simpl in *; by subst.
Qed.

Variable number_to_string : Z -> string.
Variable ko_toJS : list obj -> value -> list obj * value.
Variable ko_mapping_toJS : value -> M value.
Variable ko_mapping_fromJS : value -> value -> M value.

(** X22: on a single selection array with nothing selected, [clone]
    without argument throws a TypeError, reading [__ko_mapping__] of [null],
    and changes nothing, with or without a [create] method; on a multiple
    selection array with an empty selection it returns the array and changes
    nothing. *)
Theorem clone_nothing_selected (create : option (value -> M value))
    (st : oarray) (object : value) :
  has_bindingTools st ->
  truthy object = false ->
  (single_selection st -> selected st = VNull ->
   this_call "clone"
     (clone number_to_string ko_toJS ko_mapping_toJS ko_mapping_fromJS create object) st
   = (Throw (TypeError "Cannot read property __ko_mapping__"), st)) /\
  (multiple_selection st -> selectedItems st = [] ->
   this_call "clone"
     (clone number_to_string ko_toJS ko_mapping_toJS ko_mapping_fromJS create object) st
   = (Ok (self st), st)).
Proof.
  intros (_ & Hclone & _) Hobject. split.
  - intros [Hitem Hindex] Hnull.
    run_tools Hclone Hitem Hobject. rewrite Hnull.
    by run_tools Hclone Hitem Hobject.
  - intros (Hitems & Hindexes & Hnone) Hempty.
    run_tools Hclone Hnone Hobject. run_tools Hitems Hempty Hobject.
    destruct st; simpl in *; by subst.
Qed.


Lemma arrayIndexOf_app_found (array more : list value) (x : value) :
  x ∈ array -> Ko.arrayIndexOf (array ++ more) x = Ko.arrayIndexOf array x.
Proof.
  induction array as [|y rest IH]; [by intros ?%elem_of_nil|].
  intros Hin. simpl. destruct (strict_eq y x) eqn:E; [done|].
  apply strict_eq_false in E.
  apply elem_of_cons in Hin as [->|Hin]; [done|]. by rewrite IH.
Qed.


End ToolsMore.

Section ToolScenarios.

Import Selectable Spec.

Lemma delete_object_single_witness :
  underlyingArray
    (exec (this_call "delete" (delete (VStr "a")))
       (exec (this_call "selectedItem" (write_selectedItem (VStr "b")))
          (exec (selectable ["bindingTools"%string])
             (observableArray 0 [] [VStr "a"; VStr "b"; VStr "a"]))))
  = [VStr "b"] /\
  selected
    (exec (this_call "delete" (delete (VStr "a")))
       (exec (this_call "selectedItem" (write_selectedItem (VStr "b")))
          (exec (selectable ["bindingTools"%string])
             (observableArray 0 [] [VStr "a"; VStr "b"; VStr "a"]))))
  = VStr "b".
Proof.
  destruct (delete_object_single
              (exec (this_call "selectedItem" (write_selectedItem (VStr "b")))
                 (exec (selectable ["bindingTools"%string])
                    (observableArray 0 [] [VStr "a"; VStr "b"; VStr "a"])))
              (VStr "a"))
    as (_ & Harray & _ & _ & Hkept & _).
  - repeat split.
  - repeat split.
  - reflexivity.
  - apply write_selectedItem_in_array. repeat split.
  - split; [rewrite Harray; reflexivity|].
    rewrite Hkept; [reflexivity|discriminate].
Defined.

Lemma delete_selection_multiple_clears_witness :
  underlyingArray
    (exec (this_call "delete" (delete (VNum 0)))
       (exec (this_call "selectedItems" (write_selectedItems [VNum 2]))
          (exec (selectable ["multiple"%string; "bindingTools"%string])
             (observableArray 0 [] [VNum 0; VNum 1; VNum 2]))))
  = [VNum 0; VNum 1].
Proof.
  destruct (delete_selection_multiple_clears
              (exec (this_call "selectedItems" (write_selectedItems [VNum 2]))
                 (exec (selectable ["multiple"%string; "bindingTools"%string])
                    (observableArray 0 [] [VNum 0; VNum 1; VNum 2])))
              (VNum 0))
    as (_ & _ & Harray & _).
  - repeat split.
  - repeat split.
  - reflexivity.
  - rewrite Harray. vm_compute. reflexivity.
Defined.

Lemma delete_nothing_selected_witness :
  underlyingArray
    (exec (this_call "delete" (delete VUndefined))
       (exec (selectable ["bindingTools"%string])
          (observableArray 0 [] [VStr "a"; VNull; VStr "b"])))
  = [VStr "a"; VStr "b"].
Proof.
  destruct (delete_nothing_selected
              (exec (selectable ["bindingTools"%string])
                 (observableArray 0 [] [VStr "a"; VNull; VStr "b"])))
    as (_ & Harray & _).
  - repeat split.
  - repeat split.
  - reflexivity.
  - rewrite Harray. reflexivity.
Defined.

Lemma clone_nothing_selected_witness :
  result (this_call "clone"
            (clone number_digits toJS_flat (fun _ => no_mapping) (fun _ _ => no_mapping)
               None VUndefined))
    (exec (selectable ["bindingTools"%string]) (observableArray 0 [] [VStr "a"]))
  = Throw (TypeError "Cannot read property __ko_mapping__").
Proof.
  unfold result.
  rewrite (proj1 (clone_nothing_selected
                    number_digits toJS_flat (fun _ => no_mapping) (fun _ _ => no_mapping) None
                    (exec (selectable ["bindingTools"%string])
                       (observableArray 0 [] [VStr "a"]))
                    VUndefined ltac:(repeat split) eq_refl)).
  - reflexivity.
  - repeat split.
  - reflexivity.
Defined.



End ToolScenarios.

Section ToolsFurther.

Import Selectable Spec.

(** X27: the tools look at [selectedItem] first.  On an array that has both
    the single and the multiple selection attributes they work on the single
    selection and do not touch [selectedItems]: [new] selects the new object
    as [selectedItem], and [delete] with an object returns without error and
    leaves the object in [selectedItems]. *)
Theorem tools_prefer_single_selection (st : oarray) (object : value)
    (arguments : list value) :
  has_bindingTools st ->
  single_selection st ->
  members st !! "selectedItems" = Some SelectedItems ->
  truthy object = true ->
  selected (exec (this_call "new" (new None arguments)) st)
    = VObj (length (heap st)) /\
  selectedItems (exec (this_call "new" (new None arguments)) st)
    = selectedItems st /\
  result (this_call "delete" (delete object)) st = Ok (self st) /\
  selectedItems (exec (this_call "delete" (delete object)) st)
    = selectedItems st /\
  (object ∉ underlyingArray (exec (this_call "delete" (delete object)) st)).
Proof.
  intros (Hnew & _ & Hdelete) Hsingle _ Htruthy.
  unfold result, exec.
  rewrite !this_call_present by (by rewrite ?Hnew, ?Hdelete).
  rewrite new_run_single, delete_run_single by done. simpl.
  do 4 (split; [done|]).
  unfold js_or. rewrite Htruthy, elem_of_remove. tauto.
Qed.

Variable number_to_string : Z -> string.
Variable ko_toJS : list obj -> value -> list obj * value.
Variable ko_mapping_toJS : value -> M value.
Variable ko_mapping_fromJS : value -> value -> M value.

(** The inner [clone] on a boolean, a number or a string that [ko.toJS]
    gives back as it is. *)
Lemma clone_helper_primitive_run (st : oarray) (object : value) :
  truthy object = true ->
  (forall r, object <> VObj r) ->
  ko_toJS (heap st) object = (heap st, object) ->
  clone_helper number_to_string ko_toJS ko_mapping_toJS ko_mapping_fromJS None object st
  = (Ok object,
     OArray (self st) (heap st) (underlyingArray st ++ [object]) (members st)
       (selected st) (selectedItems st)).
Proof.
  intros Htruthy Hprimitive HtoJS.
  destruct object as [| |b|n|s|r]; try done; [| | |by destruct (Hprimitive r)];
    unfold clone_helper, get_prop, this_push, set_heap, set_underlyingArray;
    unfold bind, ret, gets, modify; simpl; rewrite HtoJS; by destruct st.
Qed.

(** X25: [clone] called with a truthy boolean, number or string, which
    [ko.toJS] gives back as it is, appends the value itself and selects it;
    when the value was in the array the array now holds it twice, and in a
    single selection array [selectedIndex()] is its former position, not the
    position of the entry [clone] has appended. *)
Theorem clone_primitive_item (st : oarray) (object : value) :
  has_bindingTools st ->
  single_selection st \/ multiple_selection st ->
  truthy object = true ->
  (forall r, object <> VObj r) ->
  ko_toJS (heap st) object = (heap st, object) ->
  underlyingArray
    (exec (this_call "clone"
             (clone number_to_string ko_toJS ko_mapping_toJS ko_mapping_fromJS None object)) st)
    = underlyingArray st ++ [object] /\
  (single_selection st ->
     selected
       (exec (this_call "clone"
                (clone number_to_string ko_toJS ko_mapping_toJS ko_mapping_fromJS None object)) st)
     = object /\
     (object ∈ underlyingArray st ->
      result (this_call "clone"
                (clone number_to_string ko_toJS ko_mapping_toJS ko_mapping_fromJS None object) ;;
              this_call "selectedIndex" read_selectedIndex) st
      = Ok (Ko.arrayIndexOf (underlyingArray st) object))) /\
  (multiple_selection st ->
     selectedItems
       (exec (this_call "clone"
                (clone number_to_string ko_toJS ko_mapping_toJS ko_mapping_fromJS None object)) st)
     = [object]).
Proof.
  intros (_ & Hclone & _) Hmode Htruthy Hprimitive HtoJS.
  assert (object ∈ underlyingArray st ++ [object]) as Hpushed
    by (apply elem_of_app; right; by left).
  unfold result, exec, bind.
  rewrite !this_call_present by (by rewrite Hclone).
  destruct Hmode as [Hsingle|Hmulti].
  - pose proof (single_selectedItem _ Hsingle) as Hitem.
    assert (clone number_to_string ko_toJS ko_mapping_toJS ko_mapping_fromJS None object st
            = (Ok (self st),
               OArray (self st) (heap st) (underlyingArray st ++ [object])
                 (members st) object (selectedItems st))) as ->.
    { unfold clone, bind. rewrite this_has_present by done. rewrite Htruthy.
      unfold ret at 1. rewrite clone_helper_primitive_run by done.
      rewrite this_call_present by done.
      by rewrite write_selectedItem_present. }
    simpl. split; [done|]. split.
    + intros _. split; [done|]. intros Hin.
      rewrite this_call_present
        by (simpl; destruct Hsingle as [_ ->]; done).
      rewrite read_selectedIndex_run. simpl.
      by rewrite arrayIndexOf_app_found.
    + intros (_ & _ & Hnone). destruct Hsingle as [Hsome _]. congruence.
  - pose proof (multiple_selectedItems _ Hmulti) as Hitems.
    assert (clone number_to_string ko_toJS ko_mapping_toJS ko_mapping_fromJS None object st
            = (Ok (self st),
               OArray (self st) (heap st) (underlyingArray st ++ [object])
                 (members st) (selected st) [object])) as ->.
    { unfold clone, bind.
      rewrite this_has_absent by (by destruct Hmulti as (_ & _ & ->)).
      rewrite Htruthy. rewrite clone_helper_primitive_run by done.
      rewrite this_call_present by done.
      rewrite write_selectedItems_run. simpl select_from.
      change (Ko.arrayIndexOf [] object =? -1) with true.
      by rewrite (proj2 (Z.leb_le _ _) (proj2 (arrayIndexOf_found _ _) Hpushed)). }
    simpl. split; [done|]. split; [|done].
    intros [Hsome _]. destruct Hmulti as (_ & _ & Hnone). congruence.
Qed.

(** X26: with a [create] method, [new] pushes nothing itself: it hands a
    new empty object to [create] and selects what [create] returns, which
    succeeds only when [create] has put it in the array; otherwise the
    single selection is cleared.  When [create] throws, [new] throws and
    stops there. *)
Theorem new_with_create (this_create : value -> M value) (st st2 : oarray)
    (arguments : list value) (out : outcome value) :
  has_bindingTools st ->
  this_create (VObj (length (heap st)))
    (OArray (self st) (heap st ++ [∅]) (underlyingArray st) (members st)
       (selected st) (selectedItems st))
  = (out, st2) ->
  single_selection st2 ->
  (forall e, out = Throw e ->
     this_call "new" (new (Some this_create) arguments) st = (Throw e, st2)) /\
  (forall v, out = Ok v ->
     result (this_call "new" (new (Some this_create) arguments)) st
       = Ok (self st2) /\
     underlyingArray (exec (this_call "new" (new (Some this_create) arguments)) st)
       = underlyingArray st2 /\
     (v ∈ underlyingArray st2 ->
      selected (exec (this_call "new" (new (Some this_create) arguments)) st) = v) /\
     (v ∉ underlyingArray st2 ->
      selected (exec (this_call "new" (new (Some this_create) arguments)) st)
      = VNull)).
Proof.
  intros (Hnew & _ & _) Hcreate Hsingle.
  pose proof (single_selectedItem _ Hsingle) as Hitem.
  unfold result, exec.
  rewrite !this_call_present by (by rewrite Hnew).
  unfold new, bind, new_object, bind, gets, set_heap, modify, ret.
  rewrite Hcreate. split.
  - by intros e ->.
  - intros v ->. rewrite this_has_present by done.
    rewrite this_call_present by done.
    rewrite write_selectedItem_run. simpl.
    do 2 (split; [done|]). split; intros Hv.
    + by rewrite arrayIndexOf_ltb_found.
    + by rewrite arrayIndexOf_ltb_missing.
Qed.

End ToolsFurther.

Section ToolsFurtherScenarios.

Import Selectable Spec.

Lemma tools_prefer_single_selection_witness :
  selectedItems
    (exec (this_call "delete" (delete (VObj 0)))
       (exec (this_call "selectedItems" (write_selectedItems [VObj 0]))
          (exec (selectable ["multiple"%string; "bindingTools"%string])
             (exec (selectable []) (observableArray 0 [∅] [VObj 0])))))
  = [VObj 0] /\
  underlyingArray
    (exec (this_call "delete" (delete (VObj 0)))
       (exec (this_call "selectedItems" (write_selectedItems [VObj 0]))
          (exec (selectable ["multiple"%string; "bindingTools"%string])
             (exec (selectable []) (observableArray 0 [∅] [VObj 0])))))
  = [].
Proof.
  destruct (tools_prefer_single_selection
              (exec (this_call "selectedItems" (write_selectedItems [VObj 0]))
                 (exec (selectable ["multiple"%string; "bindingTools"%string])
                    (exec (selectable []) (observableArray 0 [∅] [VObj 0]))))
              (VObj 0) [])
    as (_ & _ & _ & Hselection & _).
  - repeat split.
  - repeat split.
  - reflexivity.
  - reflexivity.
  - split; [rewrite Hselection|]; reflexivity.
Defined.

Lemma clone_primitive_item_witness :
  underlyingArray
    (exec (this_call "clone"
             (clone number_digits toJS_flat (fun _ => no_mapping) (fun _ _ => no_mapping)
                None (VStr "a")))
       (exec (selectable ["bindingTools"%string])
          (observableArray 0 [] [VStr "a"; VStr "b"])))
  = [VStr "a"; VStr "b"; VStr "a"] /\
  result (this_call "clone"
            (clone number_digits toJS_flat (fun _ => no_mapping) (fun _ _ => no_mapping)
               None (VStr "a")) ;;
          this_call "selectedIndex" read_selectedIndex)
    (exec (selectable ["bindingTools"%string])
       (observableArray 0 [] [VStr "a"; VStr "b"]))
  = Ok 0.
Proof.
  destruct (clone_primitive_item
              number_digits toJS_flat (fun _ => no_mapping) (fun _ _ => no_mapping)
              (exec (selectable ["bindingTools"%string])
                 (observableArray 0 [] [VStr "a"; VStr "b"]))
              (VStr "a"))
    as (Harray & Hsingle & _).
  - repeat split.
  - left. repeat split.
  - reflexivity.
  - discriminate.
  - reflexivity.
  - split; [exact Harray|].
    destruct Hsingle as [_ Hindex]; [repeat split|].
    rewrite Hindex; [reflexivity|]. left.
Defined.

(** A [create] method that pushes the object it is given and returns it. *)
Lemma new_with_create_witness :
  selected
    (exec (this_call "new"
             (new (Some (fun data => this_push data ;; ret data)) []))
       (exec (selectable ["bindingTools"%string]) (observableArray 0 [] [])))
  = VObj 0.
Proof.
  destruct (new_with_create
              (fun data => this_push data ;; ret data)
              (exec (selectable ["bindingTools"%string]) (observableArray 0 [] []))
              (OArray 0 [∅] [VObj 0]
                 (members (exec (selectable ["bindingTools"%string])
                             (observableArray 0 [] [])))
                 VNull [])
              [] (Ok (VObj 0)))
    as (_ & Hok).
  - repeat split.
  - reflexivity.
  - repeat split.
  - destruct (Hok (VObj 0) eq_refl) as (_ & _ & Hselected & _).
    apply Hselected. left.
Defined.

End ToolsFurtherScenarios.

(** ** What [selectable] defines *)

Section SelectableDefines.

Import Selectable Spec.

Variable number_to_string : Z -> string.
Variable ko_toJS : list obj -> value -> list obj * value.
Variable ko_mapping_toJS : value -> M value.
Variable ko_mapping_fromJS : value -> value -> M value.
Variable create : option (value -> M value).

Local Abbreviation invoke :=
  (invoke number_to_string ko_toJS ko_mapping_toJS ko_mapping_fromJS create).

Lemma invoke_selectedItems_read (st : oarray) :
  members st !! "selectedItems" = Some SelectedItems ->
  invoke "selectedItems" NoArgument st
  = Some (Ok (TheItems (selectedItems st)), st).
Proof. intros Hm. unfold invoke. by rewrite Hm. Qed.

Lemma invoke_selectedItems_write (st : oarray) (items : list value) :
  members st !! "selectedItems" = Some SelectedItems ->
  invoke "selectedItems" (Items items) st
  = Some (Ok (This (self st)),
          with_selectedItems st (written_selection (underlyingArray st) items)).
Proof.
  intros Hm. unfold invoke. rewrite Hm. simpl. unfold writing, bind.
  by rewrite write_selectedItems_run, select_from_nil.
Qed.

Lemma invoke_selectedIndexes_read (st : oarray) :
  members st !! "selectedIndexes" = Some SelectedIndexes ->
  is_Some (members st !! "selectedItems") ->
  invoke "selectedIndexes" NoArgument st
  = Some (Ok (TheIndexes (map (Ko.arrayIndexOf (underlyingArray st))
                              (selectedItems st))), st).
Proof.
  intros Hm Hitems. unfold invoke. rewrite Hm. simpl. unfold bind.
  by rewrite read_selectedIndexes_run.
Qed.

Lemma invoke_selectedIndexes_write (st : oarray) (indexes : list Z) :
  members st !! "selectedIndexes" = Some SelectedIndexes ->
  is_Some (members st !! "selectedItems") ->
  invoke "selectedIndexes" (Indexes indexes) st
  = Some (Ok (This (self st)),
          with_selectedItems st
            (written_selection (underlyingArray st)
               (map (Ko.index (underlyingArray st)) indexes))).
Proof.
  intros Hm Hitems. unfold invoke. rewrite Hm. simpl. unfold writing, bind.
  by rewrite write_selectedIndexes_run.
Qed.

Lemma invoke_selectedItem_read (st : oarray) :
  members st !! "selectedItem" = Some SelectedItem ->
  invoke "selectedItem" NoArgument st = Some (Ok (AnItem (selected st)), st).
Proof. intros Hm. unfold invoke. by rewrite Hm. Qed.

Lemma invoke_selectedItem_write (st : oarray) (object : value) :
  members st !! "selectedItem" = Some SelectedItem ->
  invoke "selectedItem" (Item object) st
  = Some (Ok (This (self st)),
          with_selected st
            (if decide (object ∈ underlyingArray st) then object else VNull)).
Proof.
  intros Hm. unfold invoke. rewrite Hm. simpl. unfold writing, bind.
  rewrite write_selectedItem_run. simpl.
  destruct (decide (object ∈ underlyingArray st)) as [Hin|Hout].
  - by rewrite arrayIndexOf_ltb_found.
  - by rewrite arrayIndexOf_ltb_missing.
Qed.

Lemma invoke_selectedIndex_read (st : oarray) :
  members st !! "selectedIndex" = Some SelectedIndex ->
  invoke "selectedIndex" NoArgument st
  = Some (Ok (AnIndex (Ko.arrayIndexOf (underlyingArray st) (selected st))), st).
Proof. intros Hm. unfold invoke. by rewrite Hm. Qed.

Lemma invoke_selectedIndex_write (st : oarray) (i : Z) :
  members st !! "selectedIndex" = Some SelectedIndex ->
  members st !! "selectedItem" = Some SelectedItem ->
  invoke "selectedIndex" (Index i) st
  = invoke "selectedItem" (Item (Ko.index (underlyingArray st) i)) st.
Proof.
  intros Hm Hitem. unfold invoke. rewrite Hm, Hitem. simpl.
  unfold writing, bind. by rewrite write_selectedIndex_run by (by rewrite Hitem).
Qed.

(** The members [selectable] leaves, and the selection it starts with. *)
Lemma selectable_members (arguments : list string) (st : oarray) :
  self (exec (selectable arguments) st) = self st /\
  underlyingArray (exec (selectable arguments) st) = underlyingArray st /\
  ("multiple"%string ∈ arguments ->
     members (exec (selectable arguments) st) !! "selectedItems"
       = Some SelectedItems /\
     members (exec (selectable arguments) st) !! "selectedIndexes"
       = Some SelectedIndexes /\
     selectedItems (exec (selectable arguments) st) = []) /\
  ("multiple"%string ∉ arguments ->
     members (exec (selectable arguments) st) !! "selectedItem"
       = Some SelectedItem /\
     members (exec (selectable arguments) st) !! "selectedIndex"
       = Some SelectedIndex /\
     selected (exec (selectable arguments) st) = VNull) /\
  ("bindingTools"%string ∈ arguments ->
     members (exec (selectable arguments) st) !! "new" = Some New /\
     members (exec (selectable arguments) st) !! "clone" = Some Clone /\
     members (exec (selectable arguments) st) !! "delete" = Some Delete).
Proof.
  unfold exec. rewrite selectable_run. simpl.
  do 2 (split; [done|]). split; [|split].
  - intros Hin%option_set_true. rewrite Hin.
    destruct (option_set (make_options arguments) "bindingTools");
      by simplify_map_eq.
  - intros Hout%option_set_false. rewrite Hout.
    destruct (option_set (make_options arguments) "bindingTools");
      by simplify_map_eq.
  - intros Hin%option_set_true. rewrite Hin.
    destruct (option_set (make_options arguments) "multiple");
      by simplify_map_eq.
Qed.

(** C6: [selectable] returns the array it was called on, whose contents it
    leaves as they are, and defines on it what its arguments ask for.
    With ['multiple'], [selectedItems] and [selectedIndexes] can be called
    on the array: without argument they read, the empty selection at first;
    with an argument they write, return the array, and a read then gives
    what was written, as items and as indexes.  Without ['multiple'] the
    same holds of [selectedItem] and [selectedIndex], which start with
    [null].  With ['bindingTools'], [new], [clone] and [delete] can be
    called and are the functions of lines 223, 182 and 199. *)
Theorem selectable_defines_attributes (arguments : list string) (st : oarray) :
  result (selectable arguments) st = Ok (self st) /\
  underlyingArray (exec (selectable arguments) st) = underlyingArray st /\
  ("multiple"%string ∈ arguments ->
     invoke "selectedItems" NoArgument (exec (selectable arguments) st)
       = Some (Ok (TheItems []), exec (selectable arguments) st) /\
     invoke "selectedIndexes" NoArgument (exec (selectable arguments) st)
       = Some (Ok (TheIndexes []), exec (selectable arguments) st) /\
     (forall items : list value,
        invoke "selectedItems" (Items items) (exec (selectable arguments) st)
          = Some (Ok (This (self st)),
                  with_selectedItems (exec (selectable arguments) st)
                    (written_selection (underlyingArray st) items)) /\
        invoke "selectedItems" NoArgument
          (with_selectedItems (exec (selectable arguments) st)
             (written_selection (underlyingArray st) items))
          = Some (Ok (TheItems (written_selection (underlyingArray st) items)),
                  with_selectedItems (exec (selectable arguments) st)
                    (written_selection (underlyingArray st) items))) /\
     (forall indexes : list Z,
        invoke "selectedIndexes" (Indexes indexes) (exec (selectable arguments) st)
          = Some (Ok (This (self st)),
                  with_selectedItems (exec (selectable arguments) st)
                    (written_selection (underlyingArray st)
                       (map (Ko.index (underlyingArray st)) indexes))) /\
        invoke "selectedIndexes" NoArgument
          (with_selectedItems (exec (selectable arguments) st)
             (written_selection (underlyingArray st)
                (map (Ko.index (underlyingArray st)) indexes)))
          = Some (Ok (TheIndexes
                        (map (Ko.arrayIndexOf (underlyingArray st))
                           (written_selection (underlyingArray st)
                              (map (Ko.index (underlyingArray st)) indexes)))),
                  with_selectedItems (exec (selectable arguments) st)
                    (written_selection (underlyingArray st)
                       (map (Ko.index (underlyingArray st)) indexes))))) /\
  ("multiple"%string ∉ arguments ->
     invoke "selectedItem" NoArgument (exec (selectable arguments) st)
       = Some (Ok (AnItem VNull), exec (selectable arguments) st) /\
     invoke "selectedIndex" NoArgument (exec (selectable arguments) st)
       = Some (Ok (AnIndex (Ko.arrayIndexOf (underlyingArray st) VNull)),
               exec (selectable arguments) st) /\
     (forall object : value,
        invoke "selectedItem" (Item object) (exec (selectable arguments) st)
          = Some (Ok (This (self st)),
                  with_selected (exec (selectable arguments) st)
                    (if decide (object ∈ underlyingArray st)
                     then object else VNull)) /\
        invoke "selectedItem" NoArgument
          (with_selected (exec (selectable arguments) st)
             (if decide (object ∈ underlyingArray st) then object else VNull))
          = Some (Ok (AnItem (if decide (object ∈ underlyingArray st)
                              then object else VNull)),
                  with_selected (exec (selectable arguments) st)
                    (if decide (object ∈ underlyingArray st)
                     then object else VNull))) /\
     (forall i : Z,
        invoke "selectedIndex" (Index i) (exec (selectable arguments) st)
          = Some (Ok (This (self st)),
                  with_selected (exec (selectable arguments) st)
                    (if decide (Ko.index (underlyingArray st) i
                                  ∈ underlyingArray st)
                     then Ko.index (underlyingArray st) i else VNull)) /\
        invoke "selectedIndex" NoArgument
          (with_selected (exec (selectable arguments) st)
             (if decide (Ko.index (underlyingArray st) i ∈ underlyingArray st)
              then Ko.index (underlyingArray st) i else VNull))
          = Some (Ok (AnIndex
                        (Ko.arrayIndexOf (underlyingArray st)
                           (if decide (Ko.index (underlyingArray st) i
                                         ∈ underlyingArray st)
                            then Ko.index (underlyingArray st) i else VNull))),
                  with_selected (exec (selectable arguments) st)
                    (if decide (Ko.index (underlyingArray st) i
                                  ∈ underlyingArray st)
                     then Ko.index (underlyingArray st) i else VNull)))) /\
  ("bindingTools"%string ∈ arguments ->
     forall object : value,
       invoke "new" (Item object) (exec (selectable arguments) st)
         = Some (returning_this (new create [object])
                   (exec (selectable arguments) st)) /\
       invoke "clone" (Item object) (exec (selectable arguments) st)
         = Some (returning_this
                   (clone number_to_string ko_toJS ko_mapping_toJS
                      ko_mapping_fromJS create object)
                   (exec (selectable arguments) st)) /\
       invoke "delete" (Item object) (exec (selectable arguments) st)
         = Some (returning_this (delete object)
                   (exec (selectable arguments) st))).
Proof.
  destruct (selectable_members arguments st)
    as (Hself & Harray & Hmultiple & Hsingle & Htools).
  split; [unfold result; by rewrite selectable_run|].
  split; [done|]. split; [|split].
  - intros (Hitems & Hindexes & Hempty)%Hmultiple.
    assert (is_Some (members (exec (selectable arguments) st) !! "selectedItems"))
      as Hsome by (by rewrite Hitems).
    rewrite invoke_selectedItems_read, invoke_selectedIndexes_read by done.
    rewrite Hempty. do 2 (split; [done|]). split.
    + intros items.
      rewrite invoke_selectedItems_write, invoke_selectedItems_read by done.
      unfold with_selectedItems, with_selected; simpl.
      by rewrite ?Harray, ?Hself.
    + intros indexes.
      rewrite invoke_selectedIndexes_write, invoke_selectedIndexes_read by done.
      unfold with_selectedItems, with_selected; simpl.
      by rewrite ?Harray, ?Hself.
  - intros (Hitem & Hindex & Hnull)%Hsingle.
    rewrite invoke_selectedItem_read, invoke_selectedIndex_read by done.
    rewrite Hnull, Harray. do 2 (split; [done|]). split.
    + intros object.
      rewrite invoke_selectedItem_write, invoke_selectedItem_read by done.
      unfold with_selectedItems, with_selected; simpl.
      by rewrite ?Harray, ?Hself.
    + intros i.
      rewrite invoke_selectedIndex_write, invoke_selectedItem_write by done.
      rewrite invoke_selectedIndex_read by done.
      unfold with_selectedItems, with_selected; simpl.
      by rewrite ?Harray, ?Hself.
  - intros (Hnew & Hclone & Hdelete)%Htools object.
    unfold invoke. by rewrite Hnew, Hclone, Hdelete.
Qed.

End SelectableDefines.

Section SelectableDefinesScenarios.

Import Selectable Spec.

Lemma selectable_defines_attributes_witness :
  invoke number_digits toJS_flat (fun _ => no_mapping) (fun _ _ => no_mapping)
    None "selectedItems" NoArgument
    (with_selectedItems
       (exec (selectable ["multiple"%string; "bindingTools"%string])
          (observableArray 7 [] [VStr "a"; VStr "b"]))
       (written_selection [VStr "a"; VStr "b"] [VStr "b"; VStr "z"; VStr "a"]))
  = Some (Ok (TheItems [VStr "b"; VStr "a"]),
          with_selectedItems
            (exec (selectable ["multiple"%string; "bindingTools"%string])
               (observableArray 7 [] [VStr "a"; VStr "b"]))
            [VStr "b"; VStr "a"]).
Proof.
  destruct (selectable_defines_attributes
              number_digits toJS_flat (fun _ => no_mapping)
              (fun _ _ => no_mapping) None
              ["multiple"%string; "bindingTools"%string]
              (observableArray 7 [] [VStr "a"; VStr "b"]))
    as (_ & _ & Hmultiple & _).
  destruct Hmultiple as (_ & _ & Hwrite & _); [left|].
  destruct (Hwrite [VStr "b"; VStr "z"; VStr "a"]) as [_ Hread].
  exact Hread.
Defined.

End SelectableDefinesScenarios.
